(** * GunSocketClusterWorker: access control and diff fan-out

    A shallow embedding of [src/GunSocketClusterWorker.ts].  The worker is a
    set of callbacks registered with a SocketCluster server.  Each callback is
    embedded as a computation in a small state monad [M] whose state records,
    in order, every call the callback makes to the outside world (the
    transport, the graph adapter, the signature verifier, timers).

    Conventions.
    - A JavaScript object used as a map (a [GunGraphData]) is an association
      list holding its own enumerable properties in [for ... in] order; a
      well-formed object has no repeated key.
    - The JavaScript numbers that the worker computes with are integer-valued
      doubles, the two zeros, the two infinities and [NaN]: the type [number].
      An integer that a double cannot hold is rounded to the nearest double,
      ties to even, as [round_double] does.
    - A string is the UTF-8 encoding of the JavaScript string, byte by byte
      (a lone surrogate encoded as any other code point, so that two
      strings are equal exactly when their encodings are); the slash and
      the ASCII digits and signs are single bytes that occur in no longer
      sequence, so [split] and [digits] work on bytes, and [trim_start]
      knows the encodings of the white space of JavaScript.
    - A value that the client sends and of which the worker only asks whether
      it is set and whether it is a string is a [value].
    - The collaborators that are imported by the source (adapter, verifier,
      random text, clock, environment) are the fields of [Externals]; the
      answer of each call may depend on how many calls were made before. *)

From Stdlib Require Import String Ascii List ZArith Lia Bool DecimalString.
From Stdlib Require DecimalNat DecimalFacts.
Import ListNotations.

Open Scope list_scope.
Open Scope string_scope.

(** ** Data model *)

(** A property of a JavaScript object: missing ([undefined]), [null], or set. *)
Inductive field (A : Type) : Type :=
| Absent
| Null
| Present (a : A).

Arguments Absent {A}.
Arguments Null {A}.
Arguments Present {A} a.

(** The number values the worker computes with: [Num z] is the double of
    value [z] (other than the negative zero), [NegZero] is [-0]. *)
Inductive number : Type :=
| NaN
| Num (z : Z)
| NegZero
| Infinity (negative : bool).

(** A value sent by a client: [undefined], a string, or anything else
    ([null], a number, a boolean, an array, an object).  Of the last kind
    the worker only tests the truthiness; [shown] is the JSON text of the
    value, which tells two such values apart. *)
Inductive value : Type :=
| Undefined
| Str (s : string)
| NotString (is_truthy : bool) (shown : string).

(** A settled promise. *)
Inductive Outcome (A : Type) : Type :=
| Resolved (a : A)
| Rejected (e : string).

Arguments Resolved {A} a.
Arguments Rejected {A} e.

(** [GunNode] is owned by the adapter and opaque to the worker. *)
Definition GunNode : Type := list (string * string).

(** [GunGraphData]: soul -> node, a node being possibly [undefined]. *)
Definition GunGraphData : Type := list (string * option GunNode).

(** [GunMsg]: ['#'], ['@'], [put], [err], [ok]. *)
Record GunMsg : Type := mkGunMsg {
  msg_hash : option string;
  msg_at : option string;
  msg_put : field GunGraphData;
  msg_err : field string;
  msg_ok : option bool
}.

Record Proof : Type := mkProof {
  proof_m : value;
  proof_s : value
}.

Record AuthToken : Type := mkAuthToken {
  pub : value;
  timestamp : number
}.

Record SCServerSocket : Type := mkSocket {
  id : string;
  authToken : option AuthToken
}.

(** The payload of a login event.  [req_proof] is [None] when [req.proof] is
    falsy; a truthy [req.proof] that is not an object has no [m]. *)
Record LoginRequest : Type := mkLoginRequest {
  req_pub : value;
  req_proof : option Proof
}.

(** The request object handed to a middleware. *)
Record MiddlewareRequest : Type := mkRequest {
  channel : string;
  socket : SCServerSocket;
  data : field GunMsg;
  req_hash : option string
}.

Record ProcessEnv : Type := mkEnv {
  GUN_OWNER_PUB : option string;
  SC_AUTH_MAX_DRIFT : option string
}.

(** What [respond] is called with in [authenticateLogin]. *)
Inductive Response : Type :=
| RespondOk
| RespondError (message : string)
| RespondMessage (message : string).

(** ** Observable calls *)

Inductive Event : Type :=
| EvRespond (r : Response)
| EvNext (err : option string)
| EvExchangePublish (chan : string) (payload : GunMsg)
| EvSocketEmit (socket_id : string) (event : string) (chan : string) (payload : GunMsg)
| EvSetTimeout (ms : Z) (callback : Event)
| EvAdapterPut (graphData : GunGraphData)
| EvAdapterGet (soul : string)
| EvVerify (proof : Proof) (pubkey : value)
| EvSetAuthToken (socket_id : string) (token : AuthToken)
| EvConsoleWarn (e : string)
| EvUnhandledRejection (e : string).

Record Externals : Type := mkExternals {
  pseudoRandomText : nat -> string;
  Math_random_base36 : nat -> string;
  Date_getTime : nat -> Z;
  verify : nat -> Proof -> value -> Outcome bool;
  createAdapter_get : nat -> string -> Outcome (option GunNode);
  createAdapter_put : nat -> GunGraphData -> Outcome (option GunGraphData);
  process_env : ProcessEnv
}.

(** ** The monad of callbacks *)

Record Runtime : Type := mkRuntime {
  events : list Event;
  ticks : nat
}.

Definition M (A : Type) : Type := Runtime -> A * Runtime.

Definition ret {A : Type} (a : A) : M A := fun rt => (a, rt).

Definition bind {A B : Type} (c : M A) (k : A -> M B) : M B :=
  fun rt => let (a, rt') := c rt in k a rt'.

Notation "x <- c1 ;; c2" := (bind c1 (fun x => c2))
  (at level 61, c1 at next level, right associativity).
Notation "c1 ;; c2" := (bind c1 (fun _ => c2))
  (at level 61, right associativity).

(** Record one call to the outside world. *)
Definition emit (e : Event) : M unit :=
  fun rt => (tt, mkRuntime (events rt ++ [e])%list (ticks rt)).

(** Ask the outside world for an answer. *)
Definition ask {A : Type} (oracle : nat -> A) : M A :=
  fun rt => (oracle (ticks rt), mkRuntime (events rt) (S (ticks rt))).

Definition start : Runtime := mkRuntime [] 0.

(** The calls made by [c] when started in [rt]. *)
Definition run {A : Type} (c : M A) (rt : Runtime) : list Event :=
  events (snd (c rt)).

Definition result {A : Type} (c : M A) (rt : Runtime) : A := fst (c rt).

Fixpoint forEach {A : Type} (l : list A) (body : A -> M unit) : M unit :=
  match l with
  | [] => ret tt
  | x :: rest => body x ;; forEach rest body
  end.

(** ** JavaScript helpers *)

(** [Object.keys(o)], which is also the order of [for (k in o)]. *)
Definition keys {A : Type} (o : list (string * A)) : list string := map fst o.

(** [o[k]]; [None] is [undefined]. *)
Fixpoint get_prop {A : Type} (o : list (string * A)) (k : string) : option A :=
  match o with
  | [] => None
  | (k', v) :: rest => if String.eqb k' k then Some v else get_prop rest k
  end.

(** A value interpolated in a template literal. *)
Definition template (v : option string) : string :=
  match v with
  | Some s => s
  | None => "undefined"
  end.

(** ** publishDiff *)

Definition exchange_publish (chan : string) (payload : GunMsg) : M unit :=
  emit (EvExchangePublish chan payload).

Definition node_message (msgId : option string) (soul : string) (nodeDiff : GunNode)
  : GunMsg :=
  {| msg_hash := Some (template msgId ++ "/" ++ soul);
     msg_at := None;
     msg_put := Present [(soul, Some nodeDiff)];
     msg_err := Absent;
     msg_ok := None |}.

Definition publishDiff_soul (msgId : option string) (diff : GunGraphData)
  (soul : string) : M unit :=
  if String.eqb soul "" then ret tt
  else
    match get_prop diff soul with
    | Some (Some nodeDiff) =>
        exchange_publish ("gun/nodes/" ++ soul) (node_message msgId soul nodeDiff)
    | _ => ret tt
    end.

Definition publishDiff (msg : GunMsg) : M unit :=
  let msgId := msg_hash msg in
  match msg_put msg with
  | Present diff =>
      forEach (keys diff) (publishDiff_soul msgId diff) ;;
      exchange_publish "gun/put/diff" msg
  | _ => ret tt
  end.

(** ** Numbers and strings as the handlers use them *)

(** The double nearest to the integer [z], ties to even; an integer of
    2^1024 - 2^970 or more in magnitude rounds to an infinity. *)
Definition round_double (z : Z) : number :=
  let a := Z.abs z in
  if Z.ltb a (2 ^ 53) then Num z
  else
    let ulp := (2 ^ (Z.log2 a - 52))%Z in
    let q := (a / ulp)%Z in
    let r := (a mod ulp)%Z in
    let half := (ulp / 2)%Z in
    let m := if Z.ltb r half then q
             else if Z.ltb half r then (q + 1)%Z
             else if Z.even q then q else (q + 1)%Z in
    if Z.leb (2 ^ 1024) (m * ulp) then Infinity (Z.ltb z 0)
    else Num (Z.sgn z * (m * ulp)).

(** [a - b] *)
Definition number_sub (a b : number) : number :=
  match a, b with
  | NaN, _ => NaN
  | _, NaN => NaN
  | Infinity s, Infinity t => if Bool.eqb s t then NaN else Infinity s
  | Infinity s, _ => Infinity s
  | _, Infinity t => Infinity (negb t)
  | NegZero, NegZero => Num 0
  | NegZero, Num y => if Z.eqb y 0 then NegZero else round_double (- y)
  | Num x, NegZero => round_double x
  | Num x, Num y => round_double (x - y)
  end.

Definition Math_abs (a : number) : number :=
  match a with
  | NaN => NaN
  | Num x => Num (Z.abs x)
  | NegZero => Num 0
  | Infinity _ => Infinity false
  end.

(** [a > b]; a comparison with [NaN] is false, and the two zeros are equal. *)
Definition number_gt (a b : number) : bool :=
  match a, b with
  | NaN, _ => false
  | _, NaN => false
  | Infinity s, Infinity t => negb s && t
  | Infinity s, _ => negb s
  | _, Infinity t => t
  | NegZero, NegZero => false
  | NegZero, Num y => Z.ltb y 0
  | Num x, NegZero => Z.ltb 0 x
  | Num x, Num y => Z.ltb y x
  end.

Definition number_truthy (a : number) : bool :=
  match a with
  | NaN => false
  | Num x => negb (Z.eqb x 0)
  | NegZero => false
  | Infinity _ => true
  end.

Definition truthy (v : value) : bool :=
  match v with
  | Undefined => false
  | Str s => negb (String.eqb s "")
  | NotString t _ => t
  end.

Definition string_truthy (v : option string) : bool :=
  match v with
  | Some s => negb (String.eqb s "")
  | None => false
  end.

(** [a === b] on values that are strings or [undefined]. *)
Definition strict_eq (a b : option string) : bool :=
  match a, b with
  | Some x, Some y => String.eqb x y
  | None, None => true
  | _, _ => false
  end.

(** [v === e] for a value [v] and an environment variable [e], which is a
    string or [undefined]. *)
Definition strict_eq_value (v : value) (e : option string) : bool :=
  match v, e with
  | Str x, Some y => String.eqb x y
  | Undefined, None => true
  | _, _ => false
  end.

(** The white space of JavaScript ([WhiteSpace] and [LineTerminator]), by
    the bytes of its encoding.  One byte: TAB, LF, VT, FF, CR, SP. *)
Definition is_white_space (c : ascii) : bool :=
  let n := nat_of_ascii c in
  Nat.eqb n 32 || (Nat.leb 9 n && Nat.leb n 13).

(** Two bytes: U+00A0. *)
Definition is_white_space2 (c1 c2 : ascii) : bool :=
  Nat.eqb (nat_of_ascii c1) 194 && Nat.eqb (nat_of_ascii c2) 160.

(** Three bytes: U+1680, U+2000 to U+200A, U+2028, U+2029, U+202F, U+205F,
    U+3000 and U+FEFF. *)
Definition is_white_space3 (c1 c2 c3 : ascii) : bool :=
  let n1 := nat_of_ascii c1 in
  let n2 := nat_of_ascii c2 in
  let n3 := nat_of_ascii c3 in
  (Nat.eqb n1 225 && Nat.eqb n2 154 && Nat.eqb n3 128)
  || (Nat.eqb n1 226 && Nat.eqb n2 128
      && ((Nat.leb 128 n3 && Nat.leb n3 138)
          || Nat.eqb n3 168 || Nat.eqb n3 169 || Nat.eqb n3 175))
  || (Nat.eqb n1 226 && Nat.eqb n2 129 && Nat.eqb n3 159)
  || (Nat.eqb n1 227 && Nat.eqb n2 128 && Nat.eqb n3 128)
  || (Nat.eqb n1 239 && Nat.eqb n2 187 && Nat.eqb n3 191).

Fixpoint trim_start (s : string) : string :=
  match s with
  | String c1 rest1 =>
      if is_white_space c1 then trim_start rest1
      else
        match rest1 with
        | String c2 rest2 =>
            if is_white_space2 c1 c2 then trim_start rest2
            else
              match rest2 with
              | String c3 rest3 =>
                  if is_white_space3 c1 c2 c3 then trim_start rest3 else s
              | EmptyString => s
              end
        | EmptyString => s
        end
  | EmptyString => s
  end.

Definition digit (c : ascii) : option Z :=
  let n := nat_of_ascii c in
  if Nat.leb 48 n && Nat.leb n 57 then Some (Z.of_nat (n - 48)) else None.

(** The value of the longest prefix of decimal digits of [s], continuing
    from the value [acc] read so far; [None] when no digit was read. *)
Fixpoint digits (s : string) (acc : option Z) : option Z :=
  match s with
  | String c rest =>
      match digit c with
      | Some d =>
          digits rest
            (Some (10 * match acc with Some a => a | None => 0 end + d)%Z)
      | None => acc
      end
  | EmptyString => acc
  end.

(** [parseInt(input, 10)]: white space is skipped, then a sign, then the
    decimal digits are read; the integer they write is rounded to a
    double, however many digits there are (as V8 does). *)
Definition parseInt (input : option string) : number :=
  let s := trim_start (template input) in
  let (negative, body) :=
    match s with
    | String "-" rest => (true, rest)
    | String "+" rest => (false, rest)
    | _ => (false, s)
    end in
  match digits body None with
  | Some n =>
      if Z.eqb n 0 then (if negative then NegZero else Num 0)
      else round_double (if negative then - n else n)
  | None => NaN
  end.

(** [s.split(sep)] for a one-character separator. *)
Fixpoint split (sep : ascii) (s : string) : list string :=
  match s with
  | EmptyString => [EmptyString]
  | String c rest =>
      if Ascii.eqb c sep then EmptyString :: split sep rest
      else
        match split sep rest with
        | head :: tail => String c head :: tail
        | [] => [String c EmptyString]
        end
  end.

Fixpoint drop_prefix (p s : string) : option string :=
  match p, s with
  | EmptyString, _ => Some s
  | String a p', String b s' => if Ascii.eqb a b then drop_prefix p' s' else None
  | String _ _, EmptyString => None
  end.

(** [s.replace(/^p/, '')] for a literal [p]. *)
Definition replace_prefix (p s : string) : string :=
  match drop_prefix p s with
  | Some rest => rest
  | None => s
  end.

(** ** The adapter *)

Record GunGraphAdapter : Type := mkAdapter {
  get : string -> M (Outcome (option GunNode));
  put : GunGraphData -> M (Outcome (option GunGraphData))
}.

(** [createAdapter()]: the storage engine, outside the worker. *)
Definition setupAdapter (ext : Externals) : GunGraphAdapter :=
  {| get := fun soul =>
       emit (EvAdapterGet soul) ;;
       ask (fun n => createAdapter_get ext n soul);
     put := fun graphData =>
       emit (EvAdapterPut graphData) ;;
       ask (fun n => createAdapter_put ext n graphData) |}.

Definition diff_message (msgId : string) (diff : GunGraphData) : GunMsg :=
  {| msg_hash := Some msgId;
     msg_at := None;
     msg_put := Present diff;
     msg_err := Absent;
     msg_ok := None |}.

Definition wrapAdapter (ext : Externals) (adapter : GunGraphAdapter)
  : GunGraphAdapter :=
  {| get := get adapter;
     put := fun graphData =>
       outcome <- put adapter graphData ;;
       match outcome with
       | Resolved diff =>
           match diff with
           | Some d =>
               if Nat.eqb (length (keys d)) 0 then ret (Resolved diff)
               else
                 msgId <- ask (pseudoRandomText ext) ;;
                 publishDiff (diff_message msgId d) ;;
                 ret (Resolved diff)
           | None => ret (Resolved diff)
           end
       | Rejected e => ret (Rejected e)
       end |}.

(** [this.adapter], as set by the constructor. *)
Definition adapter (ext : Externals) : GunGraphAdapter :=
  wrapAdapter ext (setupAdapter ext).

(** ** isAdmin, processPut, readNode *)

Definition isAdmin (ext : Externals) (sock : SCServerSocket) : bool :=
  match authToken sock with
  | Some token => strict_eq_value (pub token) (GUN_OWNER_PUB (process_env ext))
  | None => false
  end.

Definition acknowledgment (msgId : string) (msg : GunMsg) (saved : bool) : GunMsg :=
  {| msg_hash := Some msgId;
     msg_at := msg_hash msg;
     msg_put := Absent;
     msg_err := if saved then Null else Present "Error saving";
     msg_ok := Some saved |}.

Definition processPut (ext : Externals) (msg : GunMsg) : M GunMsg :=
  msgId <- ask (pseudoRandomText ext) ;;
  outcome <- match msg_put msg with
             | Present graphData => put (adapter ext) graphData
             | _ => ret (Resolved None)
             end ;;
  match outcome with
  | Resolved _ => ret (acknowledgment msgId msg true)
  | Rejected _ => ret (acknowledgment msgId msg false)
  end.

Definition readNode (ext : Externals) (soul : string)
  : M (Outcome (option GunNode)) :=
  get (adapter ext) soul.

(** ** authenticateLogin *)

Definition respond (r : Response) : M unit := emit (EvRespond r).

Definition next (err : option string) : M unit := emit (EvNext err).

Definition default_max_drift : Z := 1000 * 60 * 5.

(** [(env.SC_AUTH_MAX_DRIFT && parseInt(env.SC_AUTH_MAX_DRIFT, 10)) || 1000 * 60 * 5] *)
Definition maxDrift (env : ProcessEnv) : number :=
  if string_truthy (SC_AUTH_MAX_DRIFT env) then
    let configured := parseInt (SC_AUTH_MAX_DRIFT env) in
    if number_truthy configured then configured else Num default_max_drift
  else Num default_max_drift.

Definition setAuthToken (sock : SCServerSocket) (token : AuthToken)
  : M SCServerSocket :=
  emit (EvSetAuthToken (id sock) token) ;;
  ret {| id := id sock; authToken := Some token |}.

(** The [try] block and its [catch], once [pub] and [proof] are known to be
    truthy.  [req.proof.m.split('/')] throws when [m] is not a string, and
    the [catch] answers. *)
Definition checkProof (ext : Externals) (sock : SCServerSocket)
  (pubkey : value) (proof : Proof) : M SCServerSocket :=
  match proof_m proof with
  | Str m =>
      let parts := split "/" m in
      let socketId := nth_error parts 0 in
      let timestampStr := nth_error parts 1 in
      let timestamp := parseInt timestampStr in
      now <- ask (Date_getTime ext) ;;
      let drift := Math_abs (number_sub (Num now) timestamp) in
      if number_gt drift (maxDrift (process_env ext)) then
        respond (RespondError "Exceeded max clock drift") ;;
        ret sock
      else if negb (string_truthy socketId)
              || negb (strict_eq socketId (Some (id sock))) then
        respond (RespondError "Socket ID doesn't match") ;;
        ret sock
      else
        emit (EvVerify proof pubkey) ;;
        isVerified <- ask (fun n => verify ext n proof pubkey) ;;
        match isVerified with
        | Resolved true =>
            sock' <- setAuthToken sock {| pub := pubkey; timestamp := timestamp |} ;;
            respond RespondOk ;;
            ret sock'
        | Resolved false =>
            respond (RespondMessage "Invalid login") ;;
            ret sock
        | Rejected _ =>
            respond (RespondMessage "Invalid login") ;;
            ret sock
        end
  | _ =>
      respond (RespondMessage "Invalid login") ;;
      ret sock
  end.

(** [payload] is [None] when the login event carries [undefined] or [null]:
    [req.pub] then throws outside the [try], the promise of the handler
    rejects and nothing answers the event. *)
Definition authenticateLogin (ext : Externals) (sock : SCServerSocket)
  (payload : option LoginRequest) : M SCServerSocket :=
  match payload with
  | None =>
      emit (EvUnhandledRejection "TypeError: Cannot read property 'pub'") ;;
      ret sock
  | Some req =>
      match req_proof req with
      | Some proof =>
          if truthy (req_pub req) then checkProof ext sock (req_pub req) proof
          else
            respond (RespondMessage "Missing login info") ;;
            ret sock
      | None =>
          respond (RespondMessage "Missing login info") ;;
          ret sock
      end
  end.

(** ** subscribeMiddleware *)

Definition seed_message (msgId : string) (soul : string) (node : option GunNode)
  : GunMsg :=
  {| msg_hash := Some msgId;
     msg_at := None;
     msg_put := match node with
                | Some n => Present [(soul, Some n)]
                | None => Null
                end;
     msg_err := Absent;
     msg_ok := None |}.

Definition seed_error (msgId : string) (req : MiddlewareRequest) : GunMsg :=
  {| msg_hash := Some msgId;
     msg_at := req_hash req;
     msg_put := Absent;
     msg_err := Present "Error fetching node";
     msg_ok := None |}.

Definition subscribeMiddleware (ext : Externals) (req : MiddlewareRequest)
  : M unit :=
  if (String.eqb (channel req) "gun/put" || String.eqb (channel req) "gun/get")
     && negb (isAdmin ext (socket req)) then
    next (Some ("You aren't allowed to subscribe to " ++ channel req))
  else
    let soul := replace_prefix "gun/nodes/" (channel req) in
    if String.eqb soul "" || String.eqb soul (channel req) then next None
    else
      next None ;;
      msgId <- ask (Math_random_base36 ext) ;;
      fetched <- readNode ext soul ;;
      msg <- match fetched with
             | Resolved node => ret (seed_message msgId soul node)
             | Rejected e =>
                 emit (EvConsoleWarn e) ;;
                 ret (seed_error msgId req)
             end ;;
      emit (EvSetTimeout 25
              (EvSocketEmit (id (socket req)) "#publish" (channel req) msg)).

(** ** publishInMiddleware *)

Definition has_put (msg : field GunMsg) : option GunMsg :=
  match msg with
  | Present m =>
      match msg_put m with
      | Present _ => Some m
      | _ => None
      end
  | _ => None
  end.

Definition publishInMiddleware (ext : Externals) (req : MiddlewareRequest)
  : M unit :=
  let msg := data req in
  if negb (String.eqb (channel req) "gun/put") then
    if isAdmin ext (socket req) then next None
    else next (Some "You aren't allowed to write to this channel")
  else
    next None ;;
    if negb (String.eqb (channel req) "gun/put") then ret tt
    else
      match has_put msg with
      | None => ret tt
      | Some m =>
          ack <- processPut ext m ;;
          emit (EvSocketEmit (id (socket req)) "#publish"
                  ("gun/@" ++ template (msg_hash m)) ack)
      end.

(** ** A connection

    [setupMiddleware] registers the three handlers; what a connection does
    during its lifetime is a sequence of requests served by them. *)

Inductive Request : Type :=
| Login (payload : option LoginRequest)
| Subscribe (chan : string)
| Publish (chan : string) (payload : field GunMsg).

Definition serve (ext : Externals) (sock : SCServerSocket) (r : Request)
  : M SCServerSocket :=
  match r with
  | Login payload => authenticateLogin ext sock payload
  | Subscribe chan =>
      subscribeMiddleware ext
        {| channel := chan; socket := sock; data := Absent; req_hash := None |} ;;
      ret sock
  | Publish chan payload =>
      publishInMiddleware ext
        {| channel := chan; socket := sock; data := payload; req_hash := None |} ;;
      ret sock
  end.

Fixpoint connection (ext : Externals) (sock : SCServerSocket)
  (requests : list Request) : M SCServerSocket :=
  match requests with
  | [] => ret sock
  | r :: rest =>
      sock' <- serve ext sock r ;;
      connection ext sock' rest
  end.

(** ** What a trace says *)

Definition published_on (chan : string) (e : Event) : bool :=
  match e with
  | EvExchangePublish c _ => String.eqb c chan
  | _ => false
  end.

Definition is_publish (e : Event) : bool :=
  match e with
  | EvExchangePublish _ _ => true
  | _ => false
  end.

Definition is_adapter_call (e : Event) : bool :=
  match e with
  | EvAdapterPut _ | EvAdapterGet _ => true
  | _ => false
  end.

Definition is_verify (e : Event) : bool :=
  match e with
  | EvVerify _ _ => true
  | _ => false
  end.

Definition is_socket_emit (e : Event) : bool :=
  match e with
  | EvSocketEmit _ _ _ _ => true
  | _ => false
  end.

(** The authorization decision of a middleware: what [next] was called with. *)
Definition decision (trace : list Event) : list (option string) :=
  flat_map (fun e => match e with EvNext err => [err] | _ => [] end) trace.

(** The per-soul publications of [publishDiff]: what the [for ... in] loop
    publishes, soul by soul. *)
Definition soul_publications (msgId : option string) (diff : GunGraphData)
  (soul : string) : list Event :=
  run (publishDiff_soul msgId diff soul) start.

Definition per_soul_publications (msgId : option string) (diff : GunGraphData)
  : list Event :=
  flat_map (soul_publications msgId diff) (keys diff).

(** The calls that [c] adds to the trace of [rt]. *)
Definition new_events {A : Type} (c : M A) (rt : Runtime) : list Event :=
  skipn (length (events rt)) (run c rt).

(** The constants that [authenticateLogin] reads off a proof:
    [const [socketId, timestampStr] = req.proof.m.split('/')] and
    [const timestamp = parseInt(timestampStr, 10)]. *)
Definition proof_socketId (proof : Proof) : option string :=
  match proof_m proof with
  | Str m => nth_error (split "/" m) 0
  | _ => None
  end.

Definition proof_timestamp (proof : Proof) : number :=
  match proof_m proof with
  | Str m => parseInt (nth_error (split "/" m) 1)
  | _ => NaN
  end.

(** [drift > maxDrift], for a clock that reads [now]. *)
Definition exceeds_max_drift (env : ProcessEnv) (now : Z) (proof : Proof)
  : bool :=
  number_gt (Math_abs (number_sub (Num now) (proof_timestamp proof)))
    (maxDrift env).

(** [v === e] as a proposition. *)
Definition same_key (v : value) (e : option string) : Prop :=
  match v, e with
  | Str x, Some y => x = y
  | Undefined, None => True
  | _, _ => False
  end.

(** The connection carries the identity of the owner: it has a token, and
    the [pub] of the token is strictly equal to [GUN_OWNER_PUB]. *)
Definition is_owner (ext : Externals) (sock : SCServerSocket) : Prop :=
  exists token,
    authToken sock = Some token
    /\ same_key (pub token) (GUN_OWNER_PUB (process_env ext)).

(** The channels only the owner may subscribe to. *)
Definition privileged (chan : string) : Prop :=
  chan = "gun/put" \/ chan = "gun/get".

Definition settled_well {A : Type} (o : Outcome A) : bool :=
  match o with
  | Resolved _ => true
  | Rejected _ => false
  end.

(** ** A sample deployment, for examples

    The verifier of the sample accepts the signature [pubkey ++ ":" ++ m];
    the clock stands at 1700000000010; the owner key is ["owner-pub"]. *)

Definition sample_signature (pubkey m : string) : string := pubkey ++ ":" ++ m.

Definition sample_proof (pubkey m : string) : Proof :=
  {| proof_m := Str m; proof_s := Str (sample_signature pubkey m) |}.

Definition sample_verify (proof : Proof) (pubkey : value) : bool :=
  match proof_m proof, proof_s proof, pubkey with
  | Str m, Str s, Str k => String.eqb s (sample_signature k m)
  | _, _, _ => false
  end.

Definition sample_externals
  (store_put : GunGraphData -> Outcome (option GunGraphData)) : Externals :=
  {| pseudoRandomText := fun n => "text" ++ NilEmpty.string_of_uint (Nat.to_uint n);
     Math_random_base36 := fun n => "rnd" ++ NilEmpty.string_of_uint (Nat.to_uint n);
     Date_getTime := fun _ => 1700000000010%Z;
     verify := fun _ proof pubkey => Resolved (sample_verify proof pubkey);
     createAdapter_get := fun _ _ => Resolved None;
     createAdapter_put := fun _ graphData => store_put graphData;
     process_env := {| GUN_OWNER_PUB := Some "owner-pub";
                       SC_AUTH_MAX_DRIFT := None |} |}.

(** A store in which every write changes exactly what was written. *)
Definition store_all (graphData : GunGraphData) : Outcome (option GunGraphData) :=
  Resolved (Some graphData).

(** A store that already holds everything: every write is a no-op. *)
Definition store_nothing (_ : GunGraphData) : Outcome (option GunGraphData) :=
  Resolved (Some []).

(** A store that is down. *)
Definition store_down (_ : GunGraphData) : Outcome (option GunGraphData) :=
  Rejected "ECONNREFUSED 10.0.0.7:6379".

(** U+00A0, the no-break space, as its two bytes. *)
Definition nbsp : string :=
  String (ascii_of_nat 194) (String (ascii_of_nat 160) EmptyString).

Definition anonymous (socket_id : string) : SCServerSocket :=
  {| id := socket_id; authToken := None |}.

Definition alice : GunNode := [("name", "Alice")].

Definition put_alice : GunMsg :=
  {| msg_hash := Some "q1";
     msg_at := None;
     msg_put := Present [("soulX", Some alice)];
     msg_err := Absent;
     msg_ok := None |}.

(** ** Vocabulary for the further properties *)

Definition is_respond (e : Event) : bool :=
  match e with
  | EvRespond _ => true
  | _ => false
  end.

Definition is_next (e : Event) : bool :=
  match e with
  | EvNext _ => true
  | _ => false
  end.

Definition is_adapter_put (e : Event) : bool :=
  match e with
  | EvAdapterPut _ => true
  | _ => false
  end.

(** [String(n)] for a natural number: its decimal numeral. *)
Definition decimal (n : nat) : string :=
  NilEmpty.string_of_uint (Nat.to_uint n).

Fixpoint contains (c : ascii) (s : string) : bool :=
  match s with
  | EmptyString => false
  | String c' rest => Ascii.eqb c' c || contains c rest
  end.

Definition starts_with_digit (s : string) : bool :=
  match s with
  | String c _ => match digit c with Some _ => true | None => false end
  | EmptyString => false
  end.

(** What the loop of [publishDiff] publishes for one entry of the diff. *)
Definition entry_publication (msgId : option string)
  (entry : string * option GunNode) : list Event :=
  match entry with
  | (soul, Some nodeDiff) =>
      if String.eqb soul "" then []
      else [EvExchangePublish ("gun/nodes/" ++ soul)
              (node_message msgId soul nodeDiff)]
  | (_, None) => []
  end.

(** A deployment with no owner key. *)
Definition ownerless_externals : Externals :=
  {| pseudoRandomText := pseudoRandomText (sample_externals store_all);
     Math_random_base36 := Math_random_base36 (sample_externals store_all);
     Date_getTime := Date_getTime (sample_externals store_all);
     verify := verify (sample_externals store_all);
     createAdapter_get := createAdapter_get (sample_externals store_all);
     createAdapter_put := createAdapter_put (sample_externals store_all);
     process_env := {| GUN_OWNER_PUB := None; SC_AUTH_MAX_DRIFT := None |} |}.

(** The ids (['#']) of the messages published on the exchange. *)
Definition published_ids (trace : list Event) : list (option string) :=
  flat_map (fun e => match e with
                     | EvExchangePublish _ m => [msg_hash m]
                     | _ => []
                     end) trace.

(** The sample deployment with [SC_AUTH_MAX_DRIFT] set to ["-1"]. *)
Definition negative_drift_externals : Externals :=
  {| pseudoRandomText := pseudoRandomText (sample_externals store_all);
     Math_random_base36 := Math_random_base36 (sample_externals store_all);
     Date_getTime := Date_getTime (sample_externals store_all);
     verify := verify (sample_externals store_all);
     createAdapter_get := createAdapter_get (sample_externals store_all);
     createAdapter_put := createAdapter_put (sample_externals store_all);
     process_env := {| GUN_OWNER_PUB := Some "owner-pub";
                       SC_AUTH_MAX_DRIFT := Some "-1" |} |}.

(** The identity of the socket, when there is one, carries a [pub]. *)
Definition carries_key (sock : SCServerSocket) : Prop :=
  forall token, authToken sock = Some token -> pub token <> Undefined.

(** * Properties *)

(** ** The monad *)

Lemma runtime_eta (rt : Runtime) :
  mkRuntime (events rt ++ [])%list (ticks rt) = rt.
Proof.
  destruct rt as [evs n]; simpl. now rewrite app_nil_r.
Qed.

Lemma run_bind_emit {A : Type} (e : Event) (k : M A) (rt : Runtime) :
  (emit e ;; k) rt = k (mkRuntime (events rt ++ [e])%list (ticks rt)).
Proof. reflexivity. Qed.

Lemma forEach_emits {A : Type} (body : A -> M unit) (l : list A) :
  (forall x rt,
      body x rt = (tt, mkRuntime (events rt ++ run (body x) start)%list (ticks rt))) ->
  forall rt,
    forEach l body rt =
    (tt, mkRuntime (events rt ++ flat_map (fun x => run (body x) start) l)%list
           (ticks rt)).
Proof.
  intros Hbody. induction l as [|x rest IH]; intros rt; simpl.
  - unfold ret. now rewrite runtime_eta.
  - unfold bind. rewrite Hbody, IH. simpl. now rewrite <- app_assoc.
Qed.

(** ** Object properties *)

Lemma get_prop_in {A : Type} (o : list (string * A)) (k : string) (v : A) :
  NoDup (keys o) -> In (k, v) o -> get_prop o k = Some v.
Proof.
  induction o as [|[k' v'] rest IH]; simpl; intros Hnd Hin; [contradiction|].
  inversion Hnd as [|? ? Hnotin Hrest]; subst.
  destruct Hin as [Heq|Hin].
  - inversion Heq; subst. now rewrite String.eqb_refl.
  - destruct (String.eqb_spec k' k) as [->|Hne].
    + exfalso. apply Hnotin. unfold keys. now apply (in_map fst _ (k, v)).
    + now apply IH.
Qed.

Lemma get_prop_some_in {A : Type} (o : list (string * A)) (k : string) (v : A) :
  get_prop o k = Some v -> In (k, v) o.
Proof.
  induction o as [|[k' v'] rest IH]; simpl; [discriminate|].
  destruct (String.eqb_spec k' k) as [->|Hne]; intros H.
  - inversion H; subst. now left.
  - right. now apply IH.
Qed.

(** ** publishDiff *)

Lemma publishDiff_soul_emits (msgId : option string) (diff : GunGraphData)
  (soul : string) (rt : Runtime) :
  publishDiff_soul msgId diff soul rt =
  (tt, mkRuntime (events rt ++ soul_publications msgId diff soul)%list (ticks rt)).
Proof.
  unfold soul_publications, run, publishDiff_soul.
  destruct (String.eqb soul "").
  - unfold ret; simpl. now rewrite runtime_eta.
  - destruct (get_prop diff soul) as [[nodeDiff|]|]; simpl;
      try (unfold ret; now rewrite runtime_eta).
    reflexivity.
Qed.

Lemma publishDiff_trace (msg : GunMsg) (diff : GunGraphData) (rt : Runtime) :
  msg_put msg = Present diff ->
  publishDiff msg rt =
  (tt, mkRuntime
         (events rt ++ per_soul_publications (msg_hash msg) diff
            ++ [EvExchangePublish "gun/put/diff" msg])%list
         (ticks rt)).
Proof.
  intros Hput. unfold publishDiff. rewrite Hput. unfold bind.
  rewrite (forEach_emits (publishDiff_soul (msg_hash msg) diff)).
  - unfold exchange_publish, emit; simpl. now rewrite <- app_assoc.
  - intros soul rt'. apply publishDiff_soul_emits.
Qed.

Lemma node_channel_eqb (k soul : string) :
  String.eqb ("gun/nodes/" ++ k) ("gun/nodes/" ++ soul) = String.eqb k soul.
Proof. reflexivity. Qed.

Lemma soul_publications_on (msgId : option string) (diff : GunGraphData)
  (k soul : string) :
  filter (published_on ("gun/nodes/" ++ soul)) (soul_publications msgId diff k) =
  if String.eqb k soul then soul_publications msgId diff k else [].
Proof.
  unfold soul_publications, run, publishDiff_soul.
  destruct (String.eqb k ""); [now destruct (String.eqb k soul)|].
  destruct (get_prop diff k) as [[nodeDiff|]|];
    try now destruct (String.eqb k soul).
  cbn [exchange_publish emit snd events start app filter published_on].
  rewrite node_channel_eqb. now destruct (String.eqb k soul).
Qed.

Lemma soul_publications_off_broadcast (msgId : option string)
  (diff : GunGraphData) (k : string) :
  filter (published_on "gun/put/diff") (soul_publications msgId diff k) = [].
Proof.
  unfold soul_publications, run, publishDiff_soul.
  destruct (String.eqb k ""); [reflexivity|].
  destruct (get_prop diff k) as [[nodeDiff|]|]; reflexivity.
Qed.

Lemma per_soul_absent (msgId : option string) (diff : GunGraphData)
  (soul : string) (ks : list string) :
  ~ In soul ks ->
  filter (published_on ("gun/nodes/" ++ soul))
    (flat_map (soul_publications msgId diff) ks) = [].
Proof.
  induction ks as [|k rest IH]; intros Hnotin; [reflexivity|].
  cbn [flat_map]. cbn [In] in Hnotin.
  rewrite filter_app, soul_publications_on, IH by tauto.
  destruct (String.eqb_spec k soul) as [->|Hne]; [tauto|reflexivity].
Qed.

Lemma per_soul_once (msgId : option string) (diff : GunGraphData)
  (soul : string) (ks : list string) :
  NoDup ks -> In soul ks ->
  filter (published_on ("gun/nodes/" ++ soul))
    (flat_map (soul_publications msgId diff) ks) =
  soul_publications msgId diff soul.
Proof.
  induction ks as [|k rest IH]; intros Hnd Hin; [contradiction|].
  inversion Hnd as [|? ? Hnotin Hrest]; subst.
  cbn [flat_map]. cbn [In] in Hin.
  rewrite filter_app, soul_publications_on.
  destruct (String.eqb_spec k soul) as [->|Hne].
  - rewrite per_soul_absent by assumption. apply app_nil_r.
  - destruct Hin as [Heq|Hin]; [contradiction|]. now apply IH.
Qed.

Lemma per_soul_off_broadcast (msgId : option string) (diff : GunGraphData)
  (ks : list string) :
  filter (published_on "gun/put/diff")
    (flat_map (soul_publications msgId diff) ks) = [].
Proof.
  induction ks as [|k rest IH]; [reflexivity|].
  cbn [flat_map]. now rewrite filter_app, soul_publications_off_broadcast, IH.
Qed.

Lemma soul_publications_cases (msgId : option string) (diff : GunGraphData)
  (k : string) :
  (soul_publications msgId diff k = []
   /\ (k = "" \/ get_prop diff k = None \/ get_prop diff k = Some None))
  \/ (exists delta,
         k <> "" /\ get_prop diff k = Some (Some delta)
         /\ soul_publications msgId diff k =
            [EvExchangePublish ("gun/nodes/" ++ k) (node_message msgId k delta)]).
Proof.
  unfold soul_publications, run, publishDiff_soul.
  destruct (String.eqb_spec k "") as [->|Hne]; [left; split; [reflexivity|tauto]|].
  destruct (get_prop diff k) as [[delta|]|].
  - right. exists delta. repeat split; assumption.
  - left. split; [reflexivity|tauto].
  - left. split; [reflexivity|tauto].
Qed.

(** C1, amended.  [publishDiff] on a message carrying a diff publishes, for
    each soul of the diff that is not the empty string and whose delta is
    not null, exactly one message [{'#': "<id>/<soul>", put: {soul: delta}}]
    on that soul's channel, nothing on the channel of a soul whose delta is
    null, nothing else before the broadcast, and then the message itself,
    once and unchanged, on ["gun/put/diff"].  For a diff of two such souls
    that is two per-soul messages followed by the broadcast. *)
Theorem publishDiff_fanout :
  forall (msg : GunMsg) (diff : GunGraphData) (rt : Runtime),
    msg_put msg = Present diff ->
    NoDup (keys diff) ->
    let per_soul := per_soul_publications (msg_hash msg) diff in
    let broadcast := EvExchangePublish "gun/put/diff" msg in
    let to_soul := fun soul delta =>
      EvExchangePublish ("gun/nodes/" ++ soul)
        (node_message (msg_hash msg) soul delta) in
    run (publishDiff msg) rt = (events rt ++ per_soul ++ [broadcast])%list
    /\ (forall soul delta,
           In (soul, Some delta) diff -> soul <> "" ->
           filter (published_on ("gun/nodes/" ++ soul)) per_soul
           = [to_soul soul delta])
    /\ (forall soul,
           In (soul, None) diff ->
           filter (published_on ("gun/nodes/" ++ soul)) per_soul = [])
    /\ Forall (fun e => exists soul delta,
                   In (soul, Some delta) diff /\ soul <> ""
                   /\ e = to_soul soul delta) per_soul
    /\ filter (published_on "gun/put/diff") (per_soul ++ [broadcast]) = [broadcast]
    /\ (forall A B deltaA deltaB,
           diff = [(A, Some deltaA); (B, Some deltaB)] -> A <> "" -> B <> "" ->
           per_soul = [to_soul A deltaA; to_soul B deltaB]).
Proof.
  intros msg diff rt Hput Hnd per_soul broadcast to_soul.
  assert (Hkey : forall soul v, In (soul, v) diff -> In soul (keys diff)).
  { intros soul v Hin. unfold keys. now apply (in_map fst _ (soul, v)). }
  split; [|split; [|split; [|split; [|split]]]].
  - unfold run. now rewrite (publishDiff_trace msg diff rt Hput).
  - intros soul delta Hin Hne. subst per_soul to_soul.
    unfold per_soul_publications.
    rewrite per_soul_once by eauto.
    destruct (soul_publications_cases (msg_hash msg) diff soul)
      as [[_ Hcase]|[delta' [_ [Hget Hpub]]]];
      rewrite (get_prop_in diff soul (Some delta) Hnd Hin) in *.
    + destruct Hcase as [?|[?|?]]; [contradiction|discriminate|discriminate].
    + inversion Hget; subst. exact Hpub.
  - intros soul Hin. subst per_soul. unfold per_soul_publications.
    rewrite per_soul_once by eauto.
    destruct (soul_publications_cases (msg_hash msg) diff soul)
      as [[Hnone _]|[delta' [_ [Hget _]]]]; [exact Hnone|].
    rewrite (get_prop_in diff soul None Hnd Hin) in Hget. discriminate.
  - subst per_soul. unfold per_soul_publications.
    apply Forall_flat_map, Forall_forall. intros k _.
    destruct (soul_publications_cases (msg_hash msg) diff k)
      as [[Hnone _]|[delta [Hne [Hget Hpub]]]].
    + rewrite Hnone. constructor.
    + rewrite Hpub. constructor; [|constructor].
      exists k, delta. repeat split; [|assumption].
      now apply get_prop_some_in.
  - subst per_soul. unfold per_soul_publications.
    now rewrite filter_app, per_soul_off_broadcast.
  - intros A B deltaA deltaB Hdiff HA HB. subst per_soul to_soul.
    unfold per_soul_publications. subst diff.
    inversion Hnd as [|? ? Hnotin _]; subst.
    assert (HAB : A <> B) by (intros ->; apply Hnotin; now left).
    cbn [keys map fst flat_map app].
    unfold soul_publications, run, publishDiff_soul. cbn [get_prop].
    apply String.eqb_neq in HA, HB, HAB.
    now rewrite HA, HB, HAB, !String.eqb_refl.
Qed.

Lemma publishDiff_fanout_witness :
  let alice : GunNode := [("name", "Alice")] in
  let bob : GunNode := [("name", "Bob")] in
  let diff : GunGraphData := [("A", Some alice); ("B", Some bob)] in
  let msg := diff_message "w1" diff in
  msg_put msg = Present diff
  /\ NoDup (keys diff)
  /\ run (publishDiff msg) start =
     [EvExchangePublish "gun/nodes/A" (node_message (Some "w1") "A" alice);
      EvExchangePublish "gun/nodes/B" (node_message (Some "w1") "B" bob);
      EvExchangePublish "gun/put/diff" msg].
Proof.
  intros alice bob diff msg.
  assert (Hnd : NoDup (keys diff)).
  { repeat constructor; simpl; intuition discriminate. }
  split; [reflexivity|]. split; [exact Hnd|].
  destruct (publishDiff_fanout msg diff start eq_refl Hnd) as [Hrun _].
  exact Hrun.
Defined.

(** C1 as stated fails on a soul that is the empty string: the loop skips
    it, so its non-null delta gets no per-soul message. *)
Lemma publishDiff_skips_empty_soul :
  let alice : GunNode := [("name", "Alice")] in
  let diff : GunGraphData := [("", Some alice)] in
  let msg := diff_message "w1" diff in
  In ("", Some alice) diff
  /\ NoDup (keys diff)
  /\ length (keys diff) = 1
  /\ run (publishDiff msg) start = [EvExchangePublish "gun/put/diff" msg]
  /\ filter (published_on ("gun/nodes/" ++ "")) (run (publishDiff msg) start) = [].
Proof.
  cbv zeta. split; [now left|]. split; [|repeat split].
  repeat constructor; simpl; tauto.
Qed.

(** ** The wrapped adapter and processPut *)

Lemma per_soul_all_publications (msgId : option string) (diff : GunGraphData) :
  Forall (fun e => is_publish e = true) (per_soul_publications msgId diff).
Proof.
  unfold per_soul_publications. apply Forall_flat_map, Forall_forall.
  intros k _.
  destruct (soul_publications_cases msgId diff k)
    as [[Hnone _]|[delta [_ [_ Hpub]]]].
  - rewrite Hnone. constructor.
  - rewrite Hpub. repeat constructor.
Qed.

(** A write through [this.adapter]: the store is called, and what follows is
    the fan-out of the diff, if any. *)
Lemma adapter_put_trace (ext : Externals) (graphData : GunGraphData)
  (rt : Runtime) :
  exists fanout n,
    put (adapter ext) graphData rt =
    (createAdapter_put ext (ticks rt) graphData,
     mkRuntime (events rt ++ EvAdapterPut graphData :: fanout)%list n)
    /\ Forall (fun e => is_publish e = true) fanout
    /\ (forall diff,
           createAdapter_put ext (ticks rt) graphData = Resolved diff ->
           diff = None \/ diff = Some [] ->
           fanout = [] /\ n = S (ticks rt)).
Proof.
  unfold adapter, wrapAdapter, setupAdapter; cbn [put].
  unfold bind at 1. unfold bind at 1. unfold emit, ask. cbn [events ticks].
  destruct (createAdapter_put ext (ticks rt) graphData) as [[d|]|e] eqn:Hput.
  - destruct d as [|entry rest].
    + exists [], (S (ticks rt)). cbn. repeat split; constructor.
    + cbn [keys map length Nat.eqb]. unfold bind, ask. cbn [events ticks].
      rewrite (publishDiff_trace _ (entry :: rest)) by reflexivity.
      cbn [events ticks ret].
      eexists _, _. split; [|split].
      * rewrite <- app_assoc. reflexivity.
      * apply Forall_app. split; [apply per_soul_all_publications|].
        repeat constructor.
      * intros diff Hdiff [->| ->]; discriminate.
  - exists [], (S (ticks rt)). cbn. repeat split; constructor.
  - exists [], (S (ticks rt)). cbn. repeat split; try constructor; discriminate.
Qed.

Lemma processPut_trace (ext : Externals) (msg : GunMsg)
  (graphData : GunGraphData) (rt : Runtime) :
  msg_put msg = Present graphData ->
  exists fanout n,
    processPut ext msg rt =
    (acknowledgment (pseudoRandomText ext (ticks rt)) msg
       (settled_well (createAdapter_put ext (S (ticks rt)) graphData)),
     mkRuntime (events rt ++ EvAdapterPut graphData :: fanout)%list n)
    /\ Forall (fun e => is_publish e = true) fanout
    /\ (forall diff,
           createAdapter_put ext (S (ticks rt)) graphData = Resolved diff ->
           diff = None \/ diff = Some [] ->
           fanout = []).
Proof.
  intros Hput. unfold processPut. rewrite Hput.
  unfold bind at 1. unfold ask at 1. unfold bind at 1.
  destruct (adapter_put_trace ext graphData
              (mkRuntime (events rt) (S (ticks rt))))
    as [fanout [n [Hrun [Hpub Hempty]]]].
  cbn [events ticks] in Hrun, Hempty. rewrite Hrun.
  exists fanout, n. split; [|split; [exact Hpub|]].
  - now destruct (createAdapter_put ext (S (ticks rt)) graphData).
  - intros diff Hdiff Hcase. now destruct (Hempty diff Hdiff Hcase).
Qed.

Lemma publishInMiddleware_write_trace (ext : Externals)
  (req : MiddlewareRequest) (msg : GunMsg) (graphData : GunGraphData)
  (rt : Runtime) :
  channel req = "gun/put" ->
  data req = Present msg ->
  msg_put msg = Present graphData ->
  exists fanout,
    run (publishInMiddleware ext req) rt =
    (events rt
       ++ EvNext None :: EvAdapterPut graphData :: fanout
       ++ [EvSocketEmit (id (socket req)) "#publish"
             ("gun/@" ++ template (msg_hash msg))
             (acknowledgment (pseudoRandomText ext (ticks rt)) msg
                (settled_well (createAdapter_put ext (S (ticks rt)) graphData)))])%list
    /\ Forall (fun e => is_publish e = true) fanout
    /\ (forall diff,
           createAdapter_put ext (S (ticks rt)) graphData = Resolved diff ->
           diff = None \/ diff = Some [] ->
           fanout = []).
Proof.
  intros Hchan Hdata Hput.
  unfold run, publishInMiddleware. rewrite Hchan, Hdata.
  cbn [String.eqb Ascii.eqb Bool.eqb negb has_put]. rewrite Hput.
  unfold next. rewrite run_bind_emit. unfold bind.
  destruct (processPut_trace ext msg graphData
              (mkRuntime (events rt ++ [EvNext None]) (ticks rt)) Hput)
    as [fanout [n [Hrun [Hpub Hempty]]]].
  cbn [events ticks] in Hrun, Hempty. rewrite Hrun.
  exists fanout. split; [|split; assumption].
  unfold emit. cbn [snd events].
  rewrite <- !app_assoc. reflexivity.
Qed.

(** ** Who is the owner *)

Lemma strict_eq_value_same (v : value) (e : option string) :
  strict_eq_value v e = true <-> same_key v e.
Proof.
  destruct v as [|x|t shown], e as [y|]; cbn [strict_eq_value same_key];
    try tauto; try (split; [discriminate|contradiction]).
  apply String.eqb_eq.
Qed.

Lemma isAdmin_owner (ext : Externals) (sock : SCServerSocket) :
  isAdmin ext sock = true <-> is_owner ext sock.
Proof.
  unfold isAdmin, is_owner. split.
  - destruct (authToken sock) as [token|]; [|discriminate].
    intros Heq. apply strict_eq_value_same in Heq. now exists token.
  - intros [token [-> Hkey]]. now apply strict_eq_value_same.
Qed.

Lemma isAdmin_not_owner (ext : Externals) (sock : SCServerSocket) :
  isAdmin ext sock = false <-> ~ is_owner ext sock.
Proof.
  rewrite <- isAdmin_owner. now destruct (isAdmin ext sock).
Qed.

(** ** Reading a trace *)

Lemma decision_app (l1 l2 : list Event) :
  decision (l1 ++ l2) = (decision l1 ++ decision l2)%list.
Proof. apply flat_map_app. Qed.

Lemma decision_publications (l : list Event) :
  Forall (fun e => is_publish e = true) l -> decision l = [].
Proof.
  induction 1 as [|e l He _ IH]; [reflexivity|].
  destruct e; try discriminate. exact IH.
Qed.

Lemma socket_emit_publications (l : list Event) :
  Forall (fun e => is_publish e = true) l -> filter is_socket_emit l = [].
Proof.
  induction 1 as [|e l He _ IH]; [reflexivity|].
  destruct e; try discriminate. exact IH.
Qed.

Lemma string_neq_eqb (a b : string) : a <> b -> String.eqb a b = false.
Proof. apply String.eqb_neq. Qed.

(** ** publishInMiddleware *)

Lemma publishInMiddleware_other_channel (ext : Externals)
  (req : MiddlewareRequest) (rt : Runtime) :
  channel req <> "gun/put" ->
  run (publishInMiddleware ext req) rt =
  (events rt
     ++ [EvNext (if isAdmin ext (socket req) then None
                 else Some "You aren't allowed to write to this channel")])%list.
Proof.
  intros Hchan. unfold run, publishInMiddleware.
  rewrite (string_neq_eqb _ _ Hchan). cbn [negb].
  now destruct (isAdmin ext (socket req)).
Qed.

Lemma publishInMiddleware_no_put (ext : Externals)
  (req : MiddlewareRequest) (rt : Runtime) :
  channel req = "gun/put" ->
  has_put (data req) = None ->
  run (publishInMiddleware ext req) rt = (events rt ++ [EvNext None])%list.
Proof.
  intros Hchan Hnone. unfold run, publishInMiddleware.
  rewrite Hchan, Hnone. reflexivity.
Qed.

Lemma has_put_some (msg : field GunMsg) (m : GunMsg) :
  has_put msg = Some m ->
  msg = Present m /\ exists graphData, msg_put m = Present graphData.
Proof.
  unfold has_put. destruct msg as [| |m']; try discriminate.
  destruct (msg_put m') as [| |graphData] eqn:Hput; try discriminate.
  intros H. inversion H; subst. split; [reflexivity|]. now exists graphData.
Qed.

(** C4.  On a channel other than ["gun/put"] the owner's publish is let
    through and anybody else's is refused, and in both cases the call of
    [next] is all that happens: the adapter is not called.  On ["gun/put"]
    the publish of any connection, authenticated or not, is let through. *)
Theorem publish_authorization :
  forall (ext : Externals) (req : MiddlewareRequest) (rt : Runtime),
    (channel req <> "gun/put" -> is_owner ext (socket req) ->
     run (publishInMiddleware ext req) rt = (events rt ++ [EvNext None])%list)
    /\ (channel req <> "gun/put" -> ~ is_owner ext (socket req) ->
        run (publishInMiddleware ext req) rt =
        (events rt
           ++ [EvNext (Some "You aren't allowed to write to this channel")])%list
        /\ filter is_adapter_call (run (publishInMiddleware ext req) rt) =
           filter is_adapter_call (events rt))
    /\ (channel req = "gun/put" ->
        decision (run (publishInMiddleware ext req) rt) =
        (decision (events rt) ++ [None])%list).
Proof.
  intros ext req rt. split; [|split].
  - intros Hchan Howner. apply isAdmin_owner in Howner.
    now rewrite publishInMiddleware_other_channel, Howner.
  - intros Hchan Hother. apply isAdmin_not_owner in Hother.
    rewrite publishInMiddleware_other_channel, Hother by assumption.
    split; [reflexivity|].
    rewrite filter_app. cbn. apply app_nil_r.
  - intros Hchan. destruct (has_put (data req)) as [m|] eqn:Hhas.
    + destruct (has_put_some _ _ Hhas) as [Hdata [graphData Hput]].
      destruct (publishInMiddleware_write_trace ext req m graphData rt
                  Hchan Hdata Hput) as [fanout [Hrun [Hpub _]]].
      rewrite Hrun, decision_app. f_equal.
      change (EvNext None :: EvAdapterPut graphData :: ?l)
        with ([EvNext None; EvAdapterPut graphData] ++ l)%list.
      rewrite !decision_app, (decision_publications fanout Hpub).
      reflexivity.
    + rewrite publishInMiddleware_no_put by assumption.
      now rewrite decision_app.
Qed.

Lemma publish_authorization_witness :
  let ext := sample_externals store_all in
  let req := {| channel := "gun/get"; socket := anonymous "sock1";
                data := Present put_alice; req_hash := None |} in
  channel req <> "gun/put"
  /\ ~ is_owner ext (socket req)
  /\ run (publishInMiddleware ext req) start =
     [EvNext (Some "You aren't allowed to write to this channel")].
Proof.
  intros ext req.
  assert (Hchan : channel req <> "gun/put") by discriminate.
  assert (Hanon : ~ is_owner ext (socket req)).
  { intros [token [Htoken _]]. discriminate. }
  split; [exact Hchan|]. split; [exact Hanon|].
  exact (proj1 (proj1 (proj2 (publish_authorization ext req start)) Hchan Hanon)).
Defined.

(** C2.  A write whose diff comes back null or empty publishes nothing:
    the wrapped [put] only calls the store and hands its answer back, and
    a publish on ["gun/put"] carrying such a write leaves no message on any
    channel of the exchange. *)
Theorem empty_diff_no_fanout :
  forall (ext : Externals) (graphData : GunGraphData)
         (diff : option GunGraphData),
    diff = None \/ diff = Some [] ->
    (forall rt,
        createAdapter_put ext (ticks rt) graphData = Resolved diff ->
        put (adapter ext) graphData rt =
        (Resolved diff,
         mkRuntime (events rt ++ [EvAdapterPut graphData])%list (S (ticks rt))))
    /\ (forall req msg rt,
           channel req = "gun/put" ->
           data req = Present msg ->
           msg_put msg = Present graphData ->
           createAdapter_put ext (S (ticks rt)) graphData = Resolved diff ->
           filter is_publish (run (publishInMiddleware ext req) rt) =
           filter is_publish (events rt)).
Proof.
  intros ext graphData diff Hempty. split.
  - intros rt Hstore.
    destruct (adapter_put_trace ext graphData rt)
      as [fanout [n [Hrun [_ Hnone]]]].
    destruct (Hnone diff Hstore Hempty) as [-> ->].
    now rewrite Hrun, Hstore.
  - intros req msg rt Hchan Hdata Hput Hstore.
    destruct (publishInMiddleware_write_trace ext req msg graphData rt
                Hchan Hdata Hput) as [fanout [Hrun [_ Hnone]]].
    rewrite (Hnone diff Hstore Hempty) in Hrun. rewrite Hrun.
    rewrite filter_app. cbn. apply app_nil_r.
Qed.

Lemma empty_diff_no_fanout_witness :
  let ext := sample_externals store_nothing in
  let req := {| channel := "gun/put"; socket := anonymous "sock1";
                data := Present put_alice; req_hash := None |} in
  (Some ([] : GunGraphData) = None \/ Some ([] : GunGraphData) = Some [])
  /\ filter is_publish (run (publishInMiddleware ext req) start) = [].
Proof.
  intros ext req.
  assert (Hempty : Some ([] : GunGraphData) = None
                   \/ Some ([] : GunGraphData) = Some [])
    by (right; reflexivity).
  split; [exact Hempty|].
  exact (proj2 (empty_diff_no_fanout ext [("soulX", Some alice)] (Some []) Hempty)
           req put_alice start eq_refl eq_refl eq_refl eq_refl).
Defined.

(** C5.  A publish on ["gun/put"] that carries a [put] is answered by
    exactly one emission to the publishing socket, the last thing the
    handler does, on the channel ["gun/@" ++ id] of the message's id.  The
    acknowledgment has the id drawn by this request's call of
    [pseudoRandomText] and ['@'] set to the message's id; it says
    [err: null, ok: true] when the store's write resolves, and
    [err: "Error saving", ok: false] when it rejects, whatever the error
    the store rejected with. *)
Theorem write_acknowledgment :
  forall (ext : Externals) (req : MiddlewareRequest) (msg : GunMsg)
         (graphData : GunGraphData) (rt : Runtime),
    channel req = "gun/put" ->
    data req = Present msg ->
    msg_put msg = Present graphData ->
    let reply := fun err ok =>
      EvSocketEmit (id (socket req)) "#publish"
        ("gun/@" ++ template (msg_hash msg))
        {| msg_hash := Some (pseudoRandomText ext (ticks rt));
           msg_at := msg_hash msg;
           msg_put := Absent;
           msg_err := err;
           msg_ok := Some ok |} in
    let trace := run (publishInMiddleware ext req) rt in
    (forall diff,
        createAdapter_put ext (S (ticks rt)) graphData = Resolved diff ->
        filter is_socket_emit trace
        = (filter is_socket_emit (events rt) ++ [reply Null true])%list
        /\ exists before, trace = (before ++ [reply Null true])%list)
    /\ (forall e,
           createAdapter_put ext (S (ticks rt)) graphData = Rejected e ->
           filter is_socket_emit trace
           = (filter is_socket_emit (events rt)
                ++ [reply (Present "Error saving") false])%list
           /\ exists before,
               trace = (before ++ [reply (Present "Error saving") false])%list).
Proof.
  intros ext req msg graphData rt Hchan Hdata Hput reply trace.
  destruct (publishInMiddleware_write_trace ext req msg graphData rt
              Hchan Hdata Hput) as [fanout [Hrun [Hpub _]]].
  fold trace in Hrun.
  assert (Hemits : forall ack,
             filter is_socket_emit
               (events rt ++ EvNext None :: EvAdapterPut graphData :: fanout
                  ++ [EvSocketEmit (id (socket req)) "#publish"
                        ("gun/@" ++ template (msg_hash msg)) ack])%list
             = (filter is_socket_emit (events rt)
                  ++ [EvSocketEmit (id (socket req)) "#publish"
                        ("gun/@" ++ template (msg_hash msg)) ack])%list).
  { intros ack. rewrite filter_app. f_equal.
    cbn [filter is_socket_emit].
    now rewrite filter_app, (socket_emit_publications fanout Hpub). }
  split.
  - intros diff Hstore. rewrite Hstore in Hrun. cbn [settled_well] in Hrun.
    rewrite Hrun. split; [apply Hemits|].
    exists (events rt ++ EvNext None :: EvAdapterPut graphData :: fanout)%list.
    now rewrite <- app_assoc.
  - intros e Hstore. rewrite Hstore in Hrun. cbn [settled_well] in Hrun.
    rewrite Hrun. split; [apply Hemits|].
    exists (events rt ++ EvNext None :: EvAdapterPut graphData :: fanout)%list.
    now rewrite <- app_assoc.
Qed.

Lemma write_acknowledgment_witness :
  let ext := sample_externals store_down in
  let req := {| channel := "gun/put"; socket := anonymous "sock1";
                data := Present put_alice; req_hash := None |} in
  channel req = "gun/put"
  /\ data req = Present put_alice
  /\ msg_put put_alice = Present [("soulX", Some alice)]
  /\ filter is_socket_emit (run (publishInMiddleware ext req) start) =
     [EvSocketEmit "sock1" "#publish" "gun/@q1"
        {| msg_hash := Some "text0";
           msg_at := Some "q1";
           msg_put := Absent;
           msg_err := Present "Error saving";
           msg_ok := Some false |}].
Proof.
  intros ext req. repeat (split; [reflexivity|]).
  exact (proj1 (proj2 (write_acknowledgment ext req put_alice
                         [("soulX", Some alice)] start
                         eq_refl eq_refl eq_refl)
                  "ECONNREFUSED 10.0.0.7:6379" eq_refl)).
Defined.

(** ** subscribeMiddleware *)

Lemma privileged_eqb (chan : string) :
  String.eqb chan "gun/put" || String.eqb chan "gun/get" = true
  <-> privileged chan.
Proof.
  unfold privileged. rewrite orb_true_iff, !String.eqb_eq. reflexivity.
Qed.

Lemma subscribeMiddleware_refused (ext : Externals) (req : MiddlewareRequest)
  (rt : Runtime) :
  privileged (channel req) ->
  isAdmin ext (socket req) = false ->
  run (subscribeMiddleware ext req) rt =
  (events rt
     ++ [EvNext (Some ("You aren't allowed to subscribe to " ++ channel req)%string)])%list.
Proof.
  intros Hpriv Hadmin. apply privileged_eqb in Hpriv.
  unfold run, subscribeMiddleware. now rewrite Hpriv, Hadmin.
Qed.

(** What an allowed subscription does after [next()]: nothing, or the seed
    (fetch the node, then emit it from a 25 ms timer). *)
Lemma subscribeMiddleware_allowed (ext : Externals) (req : MiddlewareRequest)
  (rt : Runtime) :
  (String.eqb (channel req) "gun/put" || String.eqb (channel req) "gun/get")
  && negb (isAdmin ext (socket req)) = false ->
  exists seed,
    run (subscribeMiddleware ext req) rt = (events rt ++ EvNext None :: seed)%list
    /\ decision seed = [].
Proof.
  intros Hgate. unfold run, subscribeMiddleware. rewrite Hgate.
  destruct (String.eqb (replace_prefix "gun/nodes/" (channel req)) ""
            || String.eqb (replace_prefix "gun/nodes/" (channel req)) (channel req)).
  - exists []. split; reflexivity.
  - unfold next. rewrite run_bind_emit.
    unfold readNode, adapter, wrapAdapter, setupAdapter; cbn [get].
    unfold bind, ask, emit, ret. cbn [events ticks].
    destruct (createAdapter_get ext (S (ticks rt))
                (replace_prefix "gun/nodes/" (channel req))) as [node|e];
      cbn [snd events]; rewrite <- !app_assoc; cbn [app];
      eexists; (split; [reflexivity|reflexivity]).
Qed.

(** C3.  A subscription to ["gun/put"] or ["gun/get"] is refused to every
    connection that does not carry the owner's identity, the unauthenticated
    ones included, and is let through for the owner; a subscription to a
    per-soul channel, or to any other channel, is let through for every
    connection. *)
Theorem subscribe_authorization :
  forall (ext : Externals) (req : MiddlewareRequest) (rt : Runtime),
    (privileged (channel req) -> ~ is_owner ext (socket req) ->
     run (subscribeMiddleware ext req) rt =
     (events rt
        ++ [EvNext (Some ("You aren't allowed to subscribe to " ++ channel req)%string)])%list)
    /\ (privileged (channel req) -> is_owner ext (socket req) ->
        run (subscribeMiddleware ext req) rt = (events rt ++ [EvNext None])%list)
    /\ (forall soul,
           channel req = "gun/nodes/" ++ soul ->
           decision (run (subscribeMiddleware ext req) rt) =
           (decision (events rt) ++ [None])%list)
    /\ (~ privileged (channel req) ->
        decision (run (subscribeMiddleware ext req) rt) =
        (decision (events rt) ++ [None])%list).
Proof.
  intros ext req rt.
  assert (Hopen : ~ privileged (channel req) ->
                  decision (run (subscribeMiddleware ext req) rt) =
                  (decision (events rt) ++ [None])%list).
  { intros Hnot.
    destruct (subscribeMiddleware_allowed ext req rt) as [seed [Hrun Hseed]].
    - apply andb_false_iff. left.
      destruct (String.eqb (channel req) "gun/put"
                || String.eqb (channel req) "gun/get") eqn:Hb; [|reflexivity].
      apply privileged_eqb in Hb. contradiction.
    - rewrite Hrun, decision_app.
      change (EvNext None :: seed) with ([EvNext None] ++ seed)%list.
      now rewrite decision_app, Hseed. }
  split; [|split; [|split]].
  - intros Hpriv Hother. apply isAdmin_not_owner in Hother.
    now apply subscribeMiddleware_refused.
  - intros Hpriv Howner. apply isAdmin_owner in Howner.
    unfold run, subscribeMiddleware. rewrite Howner.
    destruct Hpriv as [-> | ->]; reflexivity.
  - intros soul Hchan. apply Hopen. rewrite Hchan.
    intros [H|H]; discriminate.
  - exact Hopen.
Qed.

Lemma subscribe_authorization_witness :
  let ext := sample_externals store_all in
  let stranger :=
    {| id := "sock1";
       authToken := Some {| pub := Str "somebody-pub";
                            timestamp := Num 1700000000000 |} |} in
  let req := {| channel := "gun/put"; socket := stranger;
                data := Absent; req_hash := None |} in
  privileged (channel req)
  /\ ~ is_owner ext (socket req)
  /\ run (subscribeMiddleware ext req) start =
     [EvNext (Some "You aren't allowed to subscribe to gun/put")].
Proof.
  intros ext stranger req.
  assert (Hpriv : privileged (channel req)) by (left; reflexivity).
  assert (Hother : ~ is_owner ext (socket req)).
  { intros [token [Htoken Hkey]]. inversion Htoken; subst. discriminate. }
  split; [exact Hpriv|]. split; [exact Hother|].
  exact (proj1 (subscribe_authorization ext req start) Hpriv Hother).
Defined.

(** ** Numbers *)

Lemma round_double_safe (z : Z) :
  (Z.abs z < 2 ^ 53)%Z -> round_double z = Num z.
Proof.
  intros Hsafe. unfold round_double.
  destruct (Z.ltb_spec (Z.abs z) (2 ^ 53)) as [_|Hbig]; [reflexivity|lia].
Qed.

Lemma round_double_not_nan (z : Z) :
  (exists w, round_double z = Num w) \/ (exists s, round_double z = Infinity s).
Proof.
  unfold round_double.
  destruct (Z.ltb (Z.abs z) (2 ^ 53)); [left; eauto|].
  match goal with
  | |- context [if ?c then Infinity _ else _] => destruct c
  end; [right|left]; eauto.
Qed.

(** For magnitudes below 2^53 the comparison of the code is the comparison
    of the integers. *)
Lemma exceeds_max_drift_safe (env : ProcessEnv) (now ts limit : Z)
  (proof : Proof) :
  proof_timestamp proof = Num ts ->
  maxDrift env = Num limit ->
  (Z.abs (now - ts) < 2 ^ 53)%Z ->
  exceeds_max_drift env now proof = Z.ltb limit (Z.abs (now - ts)).
Proof.
  intros Hts Hlimit Hsafe. unfold exceeds_max_drift.
  rewrite Hts, Hlimit. cbn [number_sub].
  rewrite (round_double_safe _ Hsafe). reflexivity.
Qed.

Lemma exceeds_max_drift_message (env : ProcessEnv) (now : Z) (proof : Proof) :
  exceeds_max_drift env now proof = true -> exists m, proof_m proof = Str m.
Proof.
  unfold exceeds_max_drift, proof_timestamp.
  destruct (proof_m proof) as [|m|t shown]; [discriminate|eauto|discriminate].
Qed.

Lemma proof_socketId_message (proof : Proof) (socketId : string) :
  proof_socketId proof = Some socketId -> exists m, proof_m proof = Str m.
Proof.
  unfold proof_socketId.
  destruct (proof_m proof) as [|m|t shown]; [discriminate|eauto|discriminate].
Qed.

(** ** authenticateLogin *)

Lemma authenticateLogin_checks (ext : Externals) (sock : SCServerSocket)
  (req : LoginRequest) (proof : Proof) :
  truthy (req_pub req) = true -> req_proof req = Some proof ->
  authenticateLogin ext sock (Some req) = checkProof ext sock (req_pub req) proof.
Proof.
  intros Hpub Hproof. unfold authenticateLogin. now rewrite Hproof, Hpub.
Qed.

Lemma checkProof_no_message (ext : Externals) (sock : SCServerSocket)
  (pubkey : value) (proof : Proof) (rt : Runtime) :
  (forall m, proof_m proof <> Str m) ->
  checkProof ext sock pubkey proof rt =
  (sock,
   mkRuntime (events rt ++ [EvRespond (RespondMessage "Invalid login")])%list
     (ticks rt)).
Proof.
  intros Hnone. unfold checkProof.
  destruct (proof_m proof) as [|m|t shown]; [reflexivity| |reflexivity].
  now elim (Hnone m).
Qed.

Lemma checkProof_drift (ext : Externals) (sock : SCServerSocket)
  (pubkey : value) (proof : Proof) (rt : Runtime) :
  exceeds_max_drift (process_env ext) (Date_getTime ext (ticks rt)) proof = true ->
  checkProof ext sock pubkey proof rt =
  (sock,
   mkRuntime (events rt ++ [EvRespond (RespondError "Exceeded max clock drift")])%list
     (S (ticks rt))).
Proof.
  intros Hdrift.
  destruct (exceeds_max_drift_message _ _ _ Hdrift) as [m Hm].
  unfold exceeds_max_drift, proof_timestamp in Hdrift. rewrite Hm in Hdrift.
  unfold checkProof. rewrite Hm.
  unfold bind, ask. cbn [events ticks]. now rewrite Hdrift.
Qed.

Lemma checkProof_mismatch (ext : Externals) (sock : SCServerSocket)
  (pubkey : value) (proof : Proof) (m : string) (rt : Runtime) :
  proof_m proof = Str m ->
  exceeds_max_drift (process_env ext) (Date_getTime ext (ticks rt)) proof = false ->
  proof_socketId proof <> Some (id sock) \/ proof_socketId proof = Some "" ->
  checkProof ext sock pubkey proof rt =
  (sock,
   mkRuntime (events rt ++ [EvRespond (RespondError "Socket ID doesn't match")])%list
     (S (ticks rt))).
Proof.
  unfold exceeds_max_drift, proof_timestamp, proof_socketId.
  intros Hm Hdrift Hid. rewrite Hm in Hdrift, Hid.
  unfold checkProof. rewrite Hm.
  unfold bind, ask. cbn [events ticks]. rewrite Hdrift.
  assert (Hgate : negb (string_truthy (nth_error (split "/" m) 0))
                  || negb (strict_eq (nth_error (split "/" m) 0)
                             (Some (id sock))) = true).
  { destruct (nth_error (split "/" m) 0) as [sid|]; [|reflexivity].
    cbn [string_truthy strict_eq]. destruct Hid as [Hid|Hid].
    - destruct (String.eqb_spec sid (id sock)) as [->|_];
        [now elim Hid|apply orb_true_r].
    - inversion Hid; subst. reflexivity. }
  now rewrite Hgate.
Qed.

Lemma checkProof_verified (ext : Externals) (sock : SCServerSocket)
  (pubkey : value) (proof : Proof) (rt : Runtime) :
  exceeds_max_drift (process_env ext) (Date_getTime ext (ticks rt)) proof = false ->
  proof_socketId proof = Some (id sock) -> id sock <> "" ->
  checkProof ext sock pubkey proof rt =
  match verify ext (S (ticks rt)) proof pubkey with
  | Resolved true =>
      let token := {| pub := pubkey; timestamp := proof_timestamp proof |} in
      ({| id := id sock; authToken := Some token |},
       mkRuntime (events rt ++ [EvVerify proof pubkey;
                                EvSetAuthToken (id sock) token;
                                EvRespond RespondOk])%list
         (S (S (ticks rt))))
  | _ =>
      (sock,
       mkRuntime (events rt ++ [EvVerify proof pubkey;
                                EvRespond (RespondMessage "Invalid login")])%list
         (S (S (ticks rt))))
  end.
Proof.
  intros Hdrift Hid Hne.
  destruct (proof_socketId_message _ _ Hid) as [m Hm].
  unfold exceeds_max_drift, proof_timestamp, proof_socketId in *.
  rewrite Hm in *.
  unfold checkProof. rewrite Hm.
  unfold bind, ask. cbn [events ticks]. rewrite Hdrift, Hid.
  cbn [string_truthy strict_eq].
  rewrite (string_neq_eqb _ _ Hne), String.eqb_refl. cbn [negb orb].
  unfold emit, setAuthToken, respond, emit, bind, ret. cbn [events ticks].
  destruct (verify ext (S (ticks rt)) proof pubkey) as [[|]|e];
    cbn [events ticks]; rewrite <- ?app_assoc; reflexivity.
Qed.

Lemma maxDrift_truthy (env : ProcessEnv) : number_truthy (maxDrift env) = true.
Proof.
  unfold maxDrift. destruct (string_truthy (SC_AUTH_MAX_DRIFT env)); [|reflexivity].
  destruct (number_truthy (parseInt (SC_AUTH_MAX_DRIFT env))) eqn:Hparsed;
    [exact Hparsed|reflexivity].
Qed.

(** White space that [parseInt] skips need not be ASCII: a no-break space
    before the timestamp is skipped too. *)
Lemma unicode_space_before_timestamp :
  let ext := sample_externals store_all in
  let proof := sample_proof "alice-pub" ("sock2/" ++ nbsp ++ "1600000000000") in
  let req := {| req_pub := Str "alice-pub"; req_proof := Some proof |} in
  proof_timestamp proof = Num 1600000000000
  /\ authenticateLogin ext (anonymous "sock1") (Some req) start =
     (anonymous "sock1",
      mkRuntime [EvRespond (RespondError "Exceeded max clock drift")] 1).
Proof. cbv zeta. split; reflexivity. Qed.

(** A numeral that no double holds is read as the nearest double. *)
Lemma timestamp_rounded_to_double :
  proof_timestamp (sample_proof "alice-pub" "sock1/9007199254740993")
  = Num 9007199254740992.
Proof. reflexivity. Qed.

(** C6, amended.  A login that carries a public key and a proof whose
    timestamp the code finds further from the server's clock than
    [maxDrift] is answered with the error ["Exceeded max clock drift"], and
    that answer is all that happens: the verifier is not called and the
    socket keeps the identity it had, whatever the signature is.  The code
    compares doubles; as long as the distance is below 2^53 that is the
    comparison of the integers.  [maxDrift] is 300000 when
    [SC_AUTH_MAX_DRIFT] is not set. *)
Theorem clock_drift_rejected :
  (forall (ext : Externals) (sock : SCServerSocket) (req : LoginRequest)
          (proof : Proof) (rt : Runtime),
      truthy (req_pub req) = true ->
      req_proof req = Some proof ->
      exceeds_max_drift (process_env ext) (Date_getTime ext (ticks rt)) proof
      = true ->
      authenticateLogin ext sock (Some req) rt =
      (sock,
       mkRuntime
         (events rt ++ [EvRespond (RespondError "Exceeded max clock drift")])%list
         (S (ticks rt)))
      /\ filter is_verify (run (authenticateLogin ext sock (Some req)) rt) =
         filter is_verify (events rt))
  /\ (forall (env : ProcessEnv) (now ts limit : Z) (proof : Proof),
         proof_timestamp proof = Num ts ->
         maxDrift env = Num limit ->
         (Z.abs (now - ts) < 2 ^ 53)%Z ->
         (Z.abs (now - ts) > limit)%Z ->
         exceeds_max_drift env now proof = true)
  /\ (forall env : ProcessEnv,
         SC_AUTH_MAX_DRIFT env = None -> maxDrift env = Num 300000).
Proof.
  split; [|split].
  - intros ext sock req proof rt Hpub Hproof Hdrift.
    assert (Hrun : authenticateLogin ext sock (Some req) rt =
                   (sock,
                    mkRuntime
                      (events rt
                         ++ [EvRespond (RespondError "Exceeded max clock drift")])%list
                      (S (ticks rt)))).
    { rewrite (authenticateLogin_checks ext sock req proof) by assumption.
      now apply checkProof_drift. }
    split; [exact Hrun|].
    unfold run. rewrite Hrun. cbn [snd events].
    rewrite filter_app. cbn. apply app_nil_r.
  - intros env now ts limit proof Hts Hlimit Hsafe Hgt.
    rewrite (exceeds_max_drift_safe env now ts limit proof) by assumption.
    apply Z.ltb_lt. lia.
  - intros env Hnone. unfold maxDrift. now rewrite Hnone.
Qed.

Lemma clock_drift_rejected_witness :
  let ext := sample_externals store_all in
  let proof := sample_proof "alice-pub" "sock1/1600000000000" in
  let req := {| req_pub := Str "alice-pub"; req_proof := Some proof |} in
  truthy (req_pub req) = true
  /\ exceeds_max_drift (process_env ext) (Date_getTime ext 0) proof = true
  /\ proof_timestamp proof = Num 1600000000000
  /\ maxDrift (process_env ext) = Num 300000
  /\ (Z.abs (Date_getTime ext 0 - 1600000000000) > 300000)%Z
  /\ verify ext 1 proof (Str "alice-pub") = Resolved true
  /\ authenticateLogin ext (anonymous "sock1") (Some req) start =
     (anonymous "sock1",
      mkRuntime [EvRespond (RespondError "Exceeded max clock drift")] 1).
Proof.
  intros ext proof req.
  assert (Hpub : truthy (req_pub req) = true) by reflexivity.
  assert (Hdrift : exceeds_max_drift (process_env ext)
                     (Date_getTime ext (ticks start)) proof = true)
    by reflexivity.
  split; [exact Hpub|]. split; [exact Hdrift|].
  do 3 (split; [reflexivity|]). split; [reflexivity|].
  exact (proj1 (proj1 clock_drift_rejected ext (anonymous "sock1") req proof
                  start Hpub eq_refl Hdrift)).
Defined.

(** C6 as stated fails on a login that carries no public key: whatever the
    timestamp of its proof, the answer is ["Missing login info"]. *)
Lemma stale_proof_without_key :
  let ext := sample_externals store_all in
  let proof := sample_proof "alice-pub" "sock1/1600000000000" in
  let req := {| req_pub := Undefined; req_proof := Some proof |} in
  proof_timestamp proof = Num 1600000000000
  /\ Date_getTime ext 0 = 1700000000010%Z
  /\ maxDrift (process_env ext) = Num 300000
  /\ authenticateLogin ext (anonymous "sock1") (Some req) start =
     (anonymous "sock1",
      mkRuntime [EvRespond (RespondMessage "Missing login info")] 0).
Proof. cbv zeta. repeat split. Qed.

(** C7, amended.  A login that carries a public key and a proof with a
    message, whose timestamp does not exceed the allowed drift, and whose
    embedded socket id is not the id of the socket presenting it, is
    answered with the error ["Socket ID doesn't match"]; the verifier is
    not called, so the answer is the same whatever the signature is. *)
Theorem connection_mismatch_rejected :
  forall (ext : Externals) (sock : SCServerSocket) (req : LoginRequest)
         (proof : Proof) (m : string) (rt : Runtime),
    truthy (req_pub req) = true ->
    req_proof req = Some proof ->
    proof_m proof = Str m ->
    exceeds_max_drift (process_env ext) (Date_getTime ext (ticks rt)) proof = false ->
    proof_socketId proof <> Some (id sock) ->
    authenticateLogin ext sock (Some req) rt =
    (sock,
     mkRuntime
       (events rt ++ [EvRespond (RespondError "Socket ID doesn't match")])%list
       (S (ticks rt))).
Proof.
  intros ext sock req proof m rt Hpub Hproof Hm Hdrift Hid.
  rewrite (authenticateLogin_checks ext sock req proof) by assumption.
  apply (checkProof_mismatch ext sock (req_pub req) proof m);
    [assumption|assumption|now left].
Qed.

Lemma connection_mismatch_rejected_witness :
  let ext := sample_externals store_all in
  let proof := sample_proof "alice-pub" "sock2/1700000000000" in
  let req := {| req_pub := Str "alice-pub"; req_proof := Some proof |} in
  exceeds_max_drift (process_env ext) (Date_getTime ext 0) proof = false
  /\ proof_socketId proof <> Some "sock1"
  /\ verify ext 1 proof (Str "alice-pub") = Resolved true
  /\ authenticateLogin ext (anonymous "sock1") (Some req) start =
     (anonymous "sock1",
      mkRuntime [EvRespond (RespondError "Socket ID doesn't match")] 1).
Proof.
  intros ext proof req.
  assert (Hpub : truthy (req_pub req) = true) by reflexivity.
  assert (Hdrift : exceeds_max_drift (process_env ext)
                     (Date_getTime ext (ticks start)) proof = false)
    by reflexivity.
  assert (Hid : proof_socketId proof <> Some (id (anonymous "sock1")))
    by discriminate.
  split; [exact Hdrift|]. split; [exact Hid|]. split; [reflexivity|].
  exact (connection_mismatch_rejected ext (anonymous "sock1") req proof
           "sock2/1700000000000" start Hpub eq_refl eq_refl Hdrift Hid).
Defined.

(** C7 as stated fails when the timestamp is also out of the allowed drift:
    the drift is checked first, and the answer is the drift error. *)
Lemma stale_proof_of_other_socket :
  let ext := sample_externals store_all in
  let proof := sample_proof "alice-pub" "sock2/1600000000000" in
  let req := {| req_pub := Str "alice-pub"; req_proof := Some proof |} in
  proof_socketId proof = Some "sock2"
  /\ id (anonymous "sock1") = "sock1"
  /\ verify ext 1 proof (Str "alice-pub") = Resolved true
  /\ authenticateLogin ext (anonymous "sock1") (Some req) start =
     (anonymous "sock1",
      mkRuntime [EvRespond (RespondError "Exceeded max clock drift")] 1).
Proof. cbv zeta. repeat split. Qed.

(** C8, amended.  The form of a proof message is checked in two places
    only.  A login whose proof has no message that is a string, so that it
    cannot be split, is answered ["Invalid login"] before the clock is read
    or the verifier called; and a login whose message has an empty socket
    id part is answered with the drift error or with
    ["Socket ID doesn't match"]. *)
Theorem unsplittable_proof_rejected :
  forall (ext : Externals) (sock : SCServerSocket) (req : LoginRequest)
         (proof : Proof) (rt : Runtime),
    truthy (req_pub req) = true ->
    req_proof req = Some proof ->
    ((forall m, proof_m proof <> Str m) ->
     authenticateLogin ext sock (Some req) rt =
     (sock,
      mkRuntime (events rt ++ [EvRespond (RespondMessage "Invalid login")])%list
        (ticks rt)))
    /\ (proof_socketId proof = Some "" ->
        exists r,
          (r = RespondError "Exceeded max clock drift"
           \/ r = RespondError "Socket ID doesn't match")
          /\ authenticateLogin ext sock (Some req) rt =
             (sock, mkRuntime (events rt ++ [EvRespond r])%list (S (ticks rt)))).
Proof.
  intros ext sock req proof rt Hpub Hproof.
  rewrite (authenticateLogin_checks ext sock req proof) by assumption.
  split.
  - intros Hnone. now apply checkProof_no_message.
  - intros Hempty.
    destruct (proof_socketId_message _ _ Hempty) as [m Hm].
    destruct (exceeds_max_drift (process_env ext)
                (Date_getTime ext (ticks rt)) proof) eqn:Hdrift.
    + eexists. split; [left; reflexivity|]. now apply checkProof_drift.
    + eexists. split; [right; reflexivity|].
      apply (checkProof_mismatch ext sock (req_pub req) proof m);
        [assumption|assumption|now right].
Qed.

Lemma unsplittable_proof_rejected_witness :
  let ext := sample_externals store_all in
  let proof := {| proof_m := NotString true "1700000000000";
                  proof_s := Str "sig" |} in
  let req := {| req_pub := Str "alice-pub"; req_proof := Some proof |} in
  truthy (req_pub req) = true
  /\ (forall m, proof_m proof <> Str m)
  /\ authenticateLogin ext (anonymous "sock1") (Some req) start =
     (anonymous "sock1",
      mkRuntime [EvRespond (RespondMessage "Invalid login")] 0).
Proof.
  intros ext proof req.
  assert (Hpub : truthy (req_pub req) = true) by reflexivity.
  assert (Hnone : forall m, proof_m proof <> Str m) by (intros m; discriminate).
  split; [exact Hpub|]. split; [exact Hnone|].
  exact (proj1 (unsplittable_proof_rejected ext (anonymous "sock1") req proof
                  start Hpub eq_refl) Hnone).
Defined.

(** C8 as stated fails: a message with a third part, and a message whose
    timestamp part is a numeral followed by other text, are not refused;
    with a signature that verifies they log the connection in. *)
Lemma unchecked_proof_message_accepted :
  let ext := sample_externals store_all in
  let long := sample_proof "alice-pub" "sock1/1700000000000/again" in
  let sloppy := sample_proof "alice-pub" "sock1/1700000000000ms" in
  let login := fun proof =>
    authenticateLogin ext (anonymous "sock1")
      (Some {| req_pub := Str "alice-pub"; req_proof := Some proof |}) start in
  let token := {| pub := Str "alice-pub"; timestamp := Num 1700000000000 |} in
  split "/" "sock1/1700000000000/again" = ["sock1"; "1700000000000"; "again"]
  /\ login long =
     ({| id := "sock1"; authToken := Some token |},
      mkRuntime [EvVerify long (Str "alice-pub");
                 EvSetAuthToken "sock1" token;
                 EvRespond RespondOk] 2)
  /\ split "/" "sock1/1700000000000ms" = ["sock1"; "1700000000000ms"]
  /\ login sloppy =
     ({| id := "sock1"; authToken := Some token |},
      mkRuntime [EvVerify sloppy (Str "alice-pub");
                 EvSetAuthToken "sock1" token;
                 EvRespond RespondOk] 2).
Proof. cbv zeta. repeat split. Qed.

(** A message that is the socket id alone has no timestamp; [parseInt]
    gives [NaN], no comparison with [NaN] holds, and the drift check lets
    the login through with [NaN] as the timestamp of the identity. *)
Lemma login_with_bare_socket_id :
  let ext := sample_externals store_all in
  let bare := sample_proof "alice-pub" "sock1" in
  proof_timestamp bare = NaN
  /\ authenticateLogin ext (anonymous "sock1")
       (Some {| req_pub := Str "alice-pub"; req_proof := Some bare |}) start =
     ({| id := "sock1";
         authToken := Some {| pub := Str "alice-pub"; timestamp := NaN |} |},
      mkRuntime [EvVerify bare (Str "alice-pub");
                 EvSetAuthToken "sock1"
                   {| pub := Str "alice-pub"; timestamp := NaN |};
                 EvRespond RespondOk] 2).
Proof. cbv zeta. split; reflexivity. Qed.

(** ** The identity of a connection *)

Lemma new_events_suffix {A : Type} (c : M A) (rt : Runtime) (a : A)
  (suffix : list Event) (n : nat) :
  c rt = (a, mkRuntime (events rt ++ suffix)%list n) ->
  new_events c rt = suffix.
Proof.
  intros Hrun. unfold new_events, run. rewrite Hrun. cbn [snd events].
  rewrite skipn_app, skipn_all, Nat.sub_diag. reflexivity.
Qed.

Lemma run_shape {A : Type} (c : M A) (rt : Runtime) (suffix : list Event) :
  run c rt = (events rt ++ suffix)%list ->
  exists a n, c rt = (a, mkRuntime (events rt ++ suffix)%list n).
Proof.
  unfold run. destruct (c rt) as [a [evs n]]. cbn [snd events].
  intros ->. now exists a, n.
Qed.

Lemma subscribeMiddleware_extends (ext : Externals) (req : MiddlewareRequest)
  (rt : Runtime) :
  exists suffix,
    run (subscribeMiddleware ext req) rt = (events rt ++ suffix)%list.
Proof.
  destruct ((String.eqb (channel req) "gun/put"
             || String.eqb (channel req) "gun/get")
            && negb (isAdmin ext (socket req))) eqn:Hgate.
  - apply andb_true_iff in Hgate. destruct Hgate as [Hpriv Hadmin].
    apply privileged_eqb in Hpriv. apply negb_true_iff in Hadmin.
    eexists. now apply subscribeMiddleware_refused.
  - destruct (subscribeMiddleware_allowed ext req rt Hgate) as [seed [Hrun _]].
    eexists. exact Hrun.
Qed.

Lemma publishInMiddleware_extends (ext : Externals) (req : MiddlewareRequest)
  (rt : Runtime) :
  exists suffix,
    run (publishInMiddleware ext req) rt = (events rt ++ suffix)%list.
Proof.
  destruct (String.eqb_spec (channel req) "gun/put") as [Hchan|Hchan].
  - destruct (has_put (data req)) as [m|] eqn:Hhas.
    + destruct (has_put_some _ _ Hhas) as [Hdata [graphData Hput]].
      destruct (publishInMiddleware_write_trace ext req m graphData rt
                  Hchan Hdata Hput) as [fanout [Hrun _]].
      eexists. exact Hrun.
    + eexists. now apply publishInMiddleware_no_put.
  - eexists. now apply publishInMiddleware_other_channel.
Qed.

Lemma authenticateLogin_identity (ext : Externals) (sock : SCServerSocket)
  (payload : option LoginRequest) (rt : Runtime) :
  exists suffix n sock',
    authenticateLogin ext sock payload rt =
    (sock', mkRuntime (events rt ++ suffix)%list n)
    /\ (In (EvRespond RespondOk) suffix \/ sock' = sock).
Proof.
  unfold authenticateLogin.
  destruct payload as [req|];
    [|eexists _, _, _; split; [reflexivity|now right]].
  destruct (req_proof req) as [proof|];
    [|eexists _, _, _; split; [reflexivity|now right]].
  destruct (truthy (req_pub req));
    [|eexists _, _, _; split; [reflexivity|now right]].
  unfold checkProof.
  destruct (proof_m proof) as [|m|t shown];
    [eexists _, _, _; split; [reflexivity|now right]
    |
    |eexists _, _, _; split; [reflexivity|now right]].
  unfold bind, ask. cbn [events ticks].
  destruct (number_gt _ _);
    [eexists _, _, _; split; [reflexivity|now right]|].
  destruct (negb _ || negb _);
    [eexists _, _, _; split; [reflexivity|now right]|].
  unfold emit, setAuthToken, respond, emit, bind, ret. cbn [events ticks].
  destruct (verify ext (S (ticks rt)) proof (req_pub req)) as [[|]|e];
    cbn [events ticks]; rewrite <- ?app_assoc; cbn [app];
    eexists _, _, _; (split; [reflexivity|]).
  - left. cbn. tauto.
  - now right.
  - now right.
Qed.

Lemma serve_identity (ext : Externals) (sock : SCServerSocket) (r : Request)
  (rt : Runtime) :
  exists suffix n sock',
    serve ext sock r rt = (sock', mkRuntime (events rt ++ suffix)%list n)
    /\ (In (EvRespond RespondOk) suffix \/ sock' = sock).
Proof.
  destruct r as [req|chan|chan payload]; cbn [serve].
  - apply authenticateLogin_identity.
  - destruct (subscribeMiddleware_extends ext
                {| channel := chan; socket := sock; data := Absent;
                   req_hash := None |} rt) as [suffix Hrun].
    destruct (run_shape _ _ _ Hrun) as [u [n Heq]].
    exists suffix, n, sock. unfold bind. rewrite Heq. now split; [|right].
  - destruct (publishInMiddleware_extends ext
                {| channel := chan; socket := sock; data := payload;
                   req_hash := None |} rt) as [suffix Hrun].
    destruct (run_shape _ _ _ Hrun) as [u [n Heq]].
    exists suffix, n, sock. unfold bind. rewrite Heq. now split; [|right].
Qed.

Lemma connection_identity (ext : Externals) (requests : list Request) :
  forall (sock : SCServerSocket) (rt : Runtime),
  exists suffix n sock',
    connection ext sock requests rt =
    (sock', mkRuntime (events rt ++ suffix)%list n)
    /\ (In (EvRespond RespondOk) suffix \/ sock' = sock).
Proof.
  induction requests as [|r rest IH]; intros sock rt; cbn [connection].
  - exists [], (ticks rt), sock. unfold ret. rewrite runtime_eta. now split; [|right].
  - destruct (serve_identity ext sock r rt)
      as [suffix1 [n1 [sock1 [Hserve Hkeep1]]]].
    destruct (IH sock1 (mkRuntime (events rt ++ suffix1)%list n1))
      as [suffix2 [n2 [sock2 [Hrest Hkeep2]]]].
    cbn [events] in Hrest.
    exists (suffix1 ++ suffix2)%list, n2, sock2.
    unfold bind. rewrite Hserve, Hrest, <- app_assoc. split; [reflexivity|].
    rewrite in_app_iff.
    destruct Hkeep1 as [?| ->]; [tauto|]. destruct Hkeep2 as [?| ->]; tauto.
Qed.

(** C9, amended.  Once an identity is attached to a connection, it stays
    the identity of the connection through any sequence of requests in
    which no login is answered with success: subscriptions, publishes and
    refused logins leave the public key and the timestamp as they were. *)
Theorem identity_kept_without_new_login :
  forall (ext : Externals) (sock : SCServerSocket) (token : AuthToken)
         (requests : list Request) (rt : Runtime),
    authToken sock = Some token ->
    ~ In (EvRespond RespondOk) (new_events (connection ext sock requests) rt) ->
    authToken (result (connection ext sock requests) rt) = Some token.
Proof.
  intros ext sock token requests rt Htoken Hnone.
  destruct (connection_identity ext requests sock rt)
    as [suffix [n [sock' [Hrun Hkeep]]]].
  rewrite (new_events_suffix _ _ _ _ _ Hrun) in Hnone.
  unfold result. rewrite Hrun. cbn [fst].
  destruct Hkeep as [Hok| ->]; [contradiction|exact Htoken].
Qed.

Lemma identity_kept_without_new_login_witness :
  let ext := sample_externals store_all in
  let token := {| pub := Str "alice-pub"; timestamp := Num 1700000000000 |} in
  let sock := {| id := "sock1"; authToken := Some token |} in
  let forged := {| req_pub := Str "owner-pub";
                   req_proof := Some {| proof_m := Str "sock1/1700000000005";
                                        proof_s := Str "forged" |} |} in
  let requests := [Subscribe "gun/nodes/soulX";
                   Publish "gun/put" (Present put_alice);
                   Login (Some forged)] in
  ~ In (EvRespond RespondOk) (new_events (connection ext sock requests) start)
  /\ authToken (result (connection ext sock requests) start) = Some token.
Proof.
  intros ext token sock forged requests.
  assert (Hnone : ~ In (EvRespond RespondOk)
                      (new_events (connection ext sock requests) start)).
  { vm_compute. intuition discriminate. }
  split; [exact Hnone|].
  exact (identity_kept_without_new_login ext sock token requests start
           eq_refl Hnone).
Defined.

(** C9 as stated fails: a second login that succeeds replaces the identity
    attached by the first, public key and timestamp. *)
Lemma second_login_replaces_identity :
  let ext := sample_externals store_all in
  let first := {| req_pub := Str "alice-pub";
                  req_proof := Some (sample_proof "alice-pub" "sock1/1700000000000") |} in
  let second := {| req_pub := Str "bob-pub";
                   req_proof := Some (sample_proof "bob-pub" "sock1/1700000000005") |} in
  authToken (result (connection ext (anonymous "sock1") [Login (Some first)]) start)
  = Some {| pub := Str "alice-pub"; timestamp := Num 1700000000000 |}
  /\ authToken (result (connection ext (anonymous "sock1")
                          [Login (Some first); Login (Some second)]) start)
     = Some {| pub := Str "bob-pub"; timestamp := Num 1700000000005 |}.
Proof. cbv zeta. split; reflexivity. Qed.

(** ** The subscription seed *)

Lemma replace_prefix_nodes (soul : string) :
  replace_prefix "gun/nodes/" ("gun/nodes/" ++ soul) = soul.
Proof. reflexivity. Qed.

Lemma append_longer (soul : string) : soul <> "gun/nodes/" ++ soul.
Proof.
  intros Heq. apply (f_equal String.length) in Heq.
  cbn in Heq. lia.
Qed.

(** In the handler's own order of calls, a subscription to the channel of a
    soul calls [next()] first, then fetches the node, then arms a 25 ms
    timer whose callback emits the seed to the subscribing socket. *)
Lemma subscribe_seed_order (ext : Externals) (req : MiddlewareRequest)
  (soul : string) (rt : Runtime) :
  channel req = "gun/nodes/" ++ soul -> soul <> "" ->
  run (subscribeMiddleware ext req) rt =
  (events rt
     ++ [EvNext None; EvAdapterGet soul]
     ++ match createAdapter_get ext (S (ticks rt)) soul with
        | Resolved node =>
            [EvSetTimeout 25
               (EvSocketEmit (id (socket req)) "#publish" (channel req)
                  (seed_message (Math_random_base36 ext (ticks rt)) soul node))]
        | Rejected e =>
            [EvConsoleWarn e;
             EvSetTimeout 25
               (EvSocketEmit (id (socket req)) "#publish" (channel req)
                  (seed_error (Math_random_base36 ext (ticks rt)) req))]
        end)%list.
Proof.
  intros Hchan Hsoul. unfold run, subscribeMiddleware.
  assert (Hgate : String.eqb (channel req) "gun/put"
                  || String.eqb (channel req) "gun/get" = false)
    by (rewrite Hchan; reflexivity).
  rewrite Hgate. cbn [andb].
  assert (Hstrip : replace_prefix "gun/nodes/" (channel req) = soul)
    by (rewrite Hchan; apply replace_prefix_nodes).
  rewrite Hstrip, (string_neq_eqb _ _ Hsoul).
  assert (Hne : soul <> channel req) by (rewrite Hchan; apply append_longer).
  rewrite (string_neq_eqb _ _ Hne). cbn [orb].
  unfold next. rewrite run_bind_emit.
  unfold readNode, adapter, wrapAdapter, setupAdapter; cbn [get].
  unfold bind, ask, emit, ret. cbn [events ticks].
  destruct (createAdapter_get ext (S (ticks rt)) soul) as [node|e];
    cbn [snd events]; rewrite <- !app_assoc; reflexivity.
Qed.

(** * Further properties *)

(** ** Splitting and parsing the proof message *)

Lemma split_nonempty (sep : ascii) (s : string) : split sep s <> [].
Proof.
  destruct s as [|c rest]; cbn [split]; [discriminate|].
  destruct (Ascii.eqb c sep); [discriminate|].
  destruct (split sep rest); discriminate.
Qed.

Lemma split_without (sep : ascii) (s : string) :
  contains sep s = false -> split sep s = [s].
Proof.
  induction s as [|c rest IH]; cbn [split contains]; [reflexivity|].
  intros Hnone. apply orb_false_iff in Hnone. destruct Hnone as [Hc Hrest].
  now rewrite Hc, (IH Hrest).
Qed.

Lemma split_at_first (sep : ascii) (a b : string) :
  contains sep a = false ->
  split sep (a ++ String sep b) = a :: split sep b.
Proof.
  induction a as [|c rest IH]; cbn [append split contains].
  - intros _. now rewrite Ascii.eqb_refl.
  - intros Hnone. apply orb_false_iff in Hnone. destruct Hnone as [Hc Hrest].
    now rewrite Hc, (IH Hrest).
Qed.

Lemma concat_cons (sep x y : string) (l : list string) :
  String.concat sep (x :: y :: l) = x ++ sep ++ String.concat sep (y :: l).
Proof. reflexivity. Qed.

(** Joining the parts of [s.split(sep)] with [sep] gives [s] back, and
    [split] always returns at least one part. *)
Theorem split_join :
  forall (sep : ascii) (s : string),
    String.concat (String sep "") (split sep s) = s
    /\ 1 <= length (split sep s).
Proof.
  intros sep s. split.
  - induction s as [|c rest IH]; [reflexivity|]. cbn [split].
    pose proof (split_nonempty sep rest) as Hparts.
    destruct (Ascii.eqb_spec c sep) as [->|Hne].
    + destruct (split sep rest) as [|head tail]; [contradiction|].
      rewrite concat_cons, IH. reflexivity.
    + destruct (split sep rest) as [|head tail]; [contradiction|].
      destruct tail as [|second others].
      * rewrite <- IH. reflexivity.
      * rewrite concat_cons, <- IH, concat_cons. reflexivity.
  - pose proof (split_nonempty sep s) as Hparts.
    destruct (split sep s); [contradiction|cbn; lia].
Qed.

Lemma digit_range (c : ascii) (d : Z) :
  digit c = Some d -> 48 <= nat_of_ascii c <= 57.
Proof.
  unfold digit.
  destruct (Nat.leb 48 (nat_of_ascii c) && Nat.leb (nat_of_ascii c) 57) eqn:Hrange;
    [|discriminate].
  intros _. apply andb_true_iff in Hrange. destruct Hrange as [Hlo Hhi].
  apply Nat.leb_le in Hlo, Hhi. lia.
Qed.

Lemma trim_start_digit (c : ascii) (s : string) (d : Z) :
  digit c = Some d -> trim_start (String c s) = String c s.
Proof.
  intros Hdigit. apply digit_range in Hdigit. cbn [trim_start].
  assert (Hone : is_white_space c = false).
  { unfold is_white_space. apply orb_false_iff. split.
    - apply Nat.eqb_neq. lia.
    - apply andb_false_iff. right. apply Nat.leb_gt. lia. }
  rewrite Hone. destruct s as [|c2 s2]; [reflexivity|].
  assert (Htwo : is_white_space2 c c2 = false).
  { unfold is_white_space2. apply andb_false_iff. left.
    apply Nat.eqb_neq. lia. }
  rewrite Htwo. destruct s2 as [|c3 s3]; [reflexivity|].
  assert (Hthree : is_white_space3 c c2 c3 = false).
  { unfold is_white_space3.
    assert (H225 : Nat.eqb (nat_of_ascii c) 225 = false) by (apply Nat.eqb_neq; lia).
    assert (H226 : Nat.eqb (nat_of_ascii c) 226 = false) by (apply Nat.eqb_neq; lia).
    assert (H227 : Nat.eqb (nat_of_ascii c) 227 = false) by (apply Nat.eqb_neq; lia).
    assert (H239 : Nat.eqb (nat_of_ascii c) 239 = false) by (apply Nat.eqb_neq; lia).
    now rewrite H225, H226, H227, H239. }
  now rewrite Hthree.
Qed.

Lemma digit_not_sign (c : ascii) (d : Z) :
  digit c = Some d -> c <> "-"%char /\ c <> "+"%char.
Proof.
  intros Hdigit. apply digit_range in Hdigit.
  split; intros ->; cbn in Hdigit; lia.
Qed.

Lemma parseInt_unsigned (c : ascii) (s : string) (d : Z) :
  digit c = Some d ->
  parseInt (Some (String c s)) =
  match digits (String c s) None with
  | Some n => if Z.eqb n 0 then Num 0 else round_double n
  | None => NaN
  end.
Proof.
  intros Hdigit. unfold parseInt. cbn [template].
  rewrite (trim_start_digit c s d Hdigit).
  destruct (digit_not_sign c d Hdigit) as [Hminus Hplus].
  destruct c as [b0 b1 b2 b3 b4 b5 b6 b7].
  destruct b0, b1, b2, b3, b4, b5, b6, b7;
    try (now elim Hminus); try (now elim Hplus); reflexivity.
Qed.

Lemma round_double_zero (z : Z) :
  (if Z.eqb z 0 then Num 0 else round_double z) = round_double z.
Proof. destruct (Z.eqb_spec z 0) as [->|_]; reflexivity. Qed.

Lemma digits_rest (rest : string) (acc : option Z) :
  starts_with_digit rest = false -> digits rest acc = acc.
Proof.
  destruct rest as [|c rest']; [reflexivity|]. cbn [starts_with_digit digits].
  now destruct (digit c).
Qed.

Lemma digits_numeral (d : Decimal.uint) (rest : string) :
  starts_with_digit rest = false ->
  forall acc : nat,
    digits (NilEmpty.string_of_uint d ++ rest) (Some (Z.of_nat acc)) =
    Some (Z.of_nat (Nat.of_uint_acc d acc)).
Proof.
  intros Hrest.
  induction d as [|d IH|d IH|d IH|d IH|d IH|d IH|d IH|d IH|d IH|d IH];
    intros acc;
    cbn [NilEmpty.string_of_uint append Nat.of_uint_acc];
    [now apply digits_rest|..];
    cbn [digits];
    match goal with
    | |- context [digit ?c] =>
        let v := eval vm_compute in (digit c) in change (digit c) with v
    end;
    cbv beta iota; rewrite <- IH; f_equal; f_equal;
    rewrite Nat.tail_mul_spec; lia.
Qed.

Lemma to_uint_nonnil (n : nat) : Nat.to_uint n <> Decimal.Nil.
Proof.
  rewrite <- (DecimalNat.Unsigned.of_to n) at 1.
  rewrite DecimalNat.Unsigned.to_of. apply DecimalFacts.unorm_nonnil.
Qed.

Lemma digits_numeral_from (d : Decimal.uint) (rest : string) (z : Z) :
  starts_with_digit rest = false -> (0 <= z)%Z ->
  digits (NilEmpty.string_of_uint d ++ rest) (Some z) =
  Some (Z.of_nat (Nat.of_uint_acc d (Z.to_nat z))).
Proof.
  intros Hrest Hz. rewrite <- (Z2Nat.id z Hz) at 1.
  now apply digits_numeral.
Qed.

Lemma append_empty (s : string) : s ++ "" = s.
Proof. induction s as [|c rest IH]; cbn; [reflexivity|now rewrite IH]. Qed.

Lemma parseInt_numeral (n : nat) (rest : string) :
  starts_with_digit rest = false ->
  parseInt (Some (decimal n ++ rest)) = round_double (Z.of_nat n).
Proof.
  intros Hrest. unfold decimal.
  pose proof (to_uint_nonnil n) as Hnonnil.
  rewrite <- (DecimalNat.Unsigned.of_to n) at 2.
  destruct (Nat.to_uint n) as [|d|d|d|d|d|d|d|d|d|d]; [contradiction|..];
    cbn [NilEmpty.string_of_uint append];
    erewrite parseInt_unsigned by (vm_compute; reflexivity);
    cbn [digits];
    match goal with
    | |- context [digit ?c] =>
        let v := eval vm_compute in (digit c) in change (digit c) with v
    end;
    cbv beta iota;
    rewrite (digits_numeral_from d rest _ Hrest) by (vm_compute; discriminate);
    rewrite round_double_zero; reflexivity.
Qed.

Lemma parseInt_decimal_plain (n : nat) :
  parseInt (Some (decimal n)) = round_double (Z.of_nat n).
Proof.
  rewrite <- (append_empty (decimal n)). now apply parseInt_numeral.
Qed.

Lemma numeral_without_slash (d : Decimal.uint) :
  contains "/" (NilEmpty.string_of_uint d) = false.
Proof.
  induction d; cbn [NilEmpty.string_of_uint contains]; [reflexivity|..];
    rewrite IHd; reflexivity.
Qed.

Lemma first_part_without (sep : ascii) (s : string) (part : string) :
  nth_error (split sep s) 0 = Some part -> contains sep part = false.
Proof.
  revert part. induction s as [|c rest IH]; intros part; cbn [split].
  - cbn. intros H. now inversion H.
  - destruct (Ascii.eqb c sep) eqn:Hc.
    + cbn. intros H. now inversion H.
    + pose proof (split_nonempty sep rest) as Hparts.
      destruct (split sep rest) as [|head tail]; [contradiction|].
      cbn [nth_error] in *. intros H. inversion H; subst.
      cbn [contains]. rewrite Hc. now apply IH.
Qed.

Lemma contains_append (c : ascii) (a b : string) :
  contains c (a ++ b) = contains c a || contains c b.
Proof.
  induction a as [|c' rest IH]; cbn [append contains]; [reflexivity|].
  now rewrite IH, orb_assoc.
Qed.

(** X1.  A proof message written as the socket id, a slash and the decimal
    numeral of a timestamp is read back as that socket id and as the double
    nearest to that timestamp, which is the timestamp itself when it is
    below 2^53, provided the socket id holds no slash.  Text after the
    numeral that does not start with a digit, and parts after a second
    slash, change neither. *)
Theorem proof_message_decoded :
  forall (socketId rest extra : string) (signature : value) (n : nat),
    contains "/" socketId = false ->
    contains "/" rest = false ->
    starts_with_digit rest = false ->
    let sloppy := {| proof_m := Str (socketId ++ "/" ++ decimal n ++ rest);
                     proof_s := signature |} in
    let longer := {| proof_m := Str (socketId ++ "/" ++ decimal n ++ "/" ++ extra);
                     proof_s := signature |} in
    proof_socketId sloppy = Some socketId
    /\ proof_timestamp sloppy = round_double (Z.of_nat n)
    /\ proof_socketId longer = Some socketId
    /\ proof_timestamp longer = round_double (Z.of_nat n)
    /\ ((Z.of_nat n < 2 ^ 53)%Z -> round_double (Z.of_nat n) = Num (Z.of_nat n)).
Proof.
  intros socketId rest extra signature n Hsid Hrest Hdigit sloppy longer.
  unfold proof_socketId, proof_timestamp, sloppy, longer. cbn [proof_m].
  change (socketId ++ "/" ++ decimal n ++ rest)
    with (socketId ++ String "/" (decimal n ++ rest)).
  change (socketId ++ "/" ++ decimal n ++ "/" ++ extra)
    with (socketId ++ String "/" (decimal n ++ String "/" extra)).
  rewrite !split_at_first by assumption. cbn [nth_error].
  pose proof (numeral_without_slash (Nat.to_uint n)) as Hnum.
  fold (decimal n) in Hnum.
  assert (Hboth : contains "/" (decimal n ++ rest) = false)
    by now rewrite contains_append, Hnum, Hrest.
  rewrite (split_without "/" (decimal n ++ rest) Hboth).
  rewrite (split_at_first "/" (decimal n) extra Hnum). cbn [nth_error].
  repeat split; try reflexivity.
  - now apply parseInt_numeral.
  - apply parseInt_decimal_plain.
  - intros Hsafe. apply round_double_safe. lia.
Qed.

Lemma proof_message_decoded_witness :
  contains "/" "sock1" = false
  /\ contains "/" "ms" = false
  /\ starts_with_digit "ms" = false
  /\ proof_socketId {| proof_m := Str "sock1/2024ms"; proof_s := Str "sig" |}
     = Some "sock1"
  /\ proof_timestamp {| proof_m := Str "sock1/2024ms"; proof_s := Str "sig" |}
     = Num 2024.
Proof.
  do 3 (split; [reflexivity|]).
  destruct (proof_message_decoded "sock1" "ms" "x" (Str "sig") 2024
              eq_refl eq_refl eq_refl) as [Hid [Hts _]].
  split; [exact Hid|exact Hts].
Defined.

(** ** Logging in *)

(** X2.  A login whose request carries no public key, an empty one or any
    other falsy value in its place, or no proof, is answered
    ["Missing login info"]; nothing else happens: the clock is not read,
    the verifier is not called and the socket keeps what identity it
    had. *)
Theorem login_missing_credentials :
  forall (ext : Externals) (sock : SCServerSocket) (req : LoginRequest)
         (rt : Runtime),
    truthy (req_pub req) = false \/ req_proof req = None ->
    authenticateLogin ext sock (Some req) rt =
    (sock,
     mkRuntime (events rt ++ [EvRespond (RespondMessage "Missing login info")])%list
       (ticks rt)).
Proof.
  intros ext sock req rt Hmissing. unfold authenticateLogin.
  destruct (req_proof req) as [proof|]; [|reflexivity].
  destruct Hmissing as [H|H]; [|discriminate].
  now rewrite H.
Qed.

Lemma login_missing_credentials_witness :
  let ext := sample_externals store_all in
  let req := {| req_pub := Str "";
                req_proof := Some (sample_proof "" "sock1/1700000000000") |} in
  (truthy (req_pub req) = false \/ req_proof req = None)
  /\ authenticateLogin ext (anonymous "sock1") (Some req) start =
     (anonymous "sock1",
      mkRuntime [EvRespond (RespondMessage "Missing login info")] 0).
Proof.
  intros ext req.
  assert (Hmissing : truthy (req_pub req) = false \/ req_proof req = None)
    by (left; reflexivity).
  split; [exact Hmissing|].
  exact (login_missing_credentials ext (anonymous "sock1") req start Hmissing).
Defined.

Lemma within_drift (env : ProcessEnv) (now ts limit : Z) (proof : Proof) :
  proof_timestamp proof = Num ts ->
  maxDrift env = Num limit ->
  (Z.abs (now - ts) < 2 ^ 53)%Z ->
  (Z.abs (now - ts) <= limit)%Z ->
  exceeds_max_drift env now proof = false.
Proof.
  intros Hts Hlimit Hsafe Hle.
  rewrite (exceeds_max_drift_safe env now ts limit proof Hts Hlimit Hsafe).
  apply Z.ltb_ge. exact Hle.
Qed.

(** X3.  A login that carries a public key and a proof whose message
    names the socket presenting it and a timestamp no further from the
    server's clock than [maxDrift], and that the verifier accepts,
    succeeds: the verifier is called once with the proof and the key, the
    identity [{pub, timestamp}] is attached to the socket, and [respond()]
    is called with no error.  The timestamp is the number [parseInt] made
    of the second part of the message, that is the double nearest to the
    numeral, and the distance to the clock is below 2^53, where the
    subtraction of the code is exact. *)
Theorem login_accepted :
  forall (ext : Externals) (sock : SCServerSocket) (req : LoginRequest)
         (proof : Proof) (ts limit : Z) (rt : Runtime),
    truthy (req_pub req) = true ->
    req_proof req = Some proof ->
    proof_socketId proof = Some (id sock) -> id sock <> "" ->
    proof_timestamp proof = Num ts ->
    maxDrift (process_env ext) = Num limit ->
    (Z.abs (Date_getTime ext (ticks rt) - ts) < 2 ^ 53)%Z ->
    (Z.abs (Date_getTime ext (ticks rt) - ts) <= limit)%Z ->
    verify ext (S (ticks rt)) proof (req_pub req) = Resolved true ->
    let token := {| pub := req_pub req; timestamp := Num ts |} in
    authenticateLogin ext sock (Some req) rt =
    ({| id := id sock; authToken := Some token |},
     mkRuntime (events rt ++ [EvVerify proof (req_pub req);
                              EvSetAuthToken (id sock) token;
                              EvRespond RespondOk])%list
       (S (S (ticks rt)))).
Proof.
  intros ext sock req proof ts limit rt Hpub Hproof Hsid Hid Hts
         Hlimit Hsafe Hdrift Hverify token.
  rewrite (authenticateLogin_checks ext sock req proof) by assumption.
  rewrite checkProof_verified;
    [|now apply (within_drift _ _ ts limit)|assumption|assumption].
  rewrite Hverify, Hts. reflexivity.
Qed.

Lemma login_accepted_witness :
  let ext := sample_externals store_all in
  let proof := sample_proof "alice-pub" "sock1/1700000000000" in
  let req := {| req_pub := Str "alice-pub"; req_proof := Some proof |} in
  proof_socketId proof = Some "sock1"
  /\ proof_timestamp proof = Num 1700000000000
  /\ (Z.abs (Date_getTime ext 0 - 1700000000000) <= 300000)%Z
  /\ verify ext 1 proof (Str "alice-pub") = Resolved true
  /\ authenticateLogin ext (anonymous "sock1") (Some req) start =
     ({| id := "sock1";
         authToken := Some {| pub := Str "alice-pub";
                              timestamp := Num 1700000000000 |} |},
      mkRuntime [EvVerify proof (Str "alice-pub");
                 EvSetAuthToken "sock1"
                   {| pub := Str "alice-pub"; timestamp := Num 1700000000000 |};
                 EvRespond RespondOk] 2).
Proof.
  intros ext proof req.
  assert (Hid : id (anonymous "sock1") <> "") by discriminate.
  assert (Hsafe : (Z.abs (Date_getTime ext (ticks start) - 1700000000000)
                   < 2 ^ 53)%Z) by reflexivity.
  assert (Hdrift : (Z.abs (Date_getTime ext (ticks start) - 1700000000000)
                    <= 300000)%Z) by (vm_compute; discriminate).
  repeat (split; [first [exact Hdrift | reflexivity]|]).
  exact (login_accepted ext (anonymous "sock1") req proof
           1700000000000%Z 300000%Z start
           eq_refl eq_refl eq_refl Hid eq_refl eq_refl Hsafe Hdrift eq_refl).
Defined.

(** X4.  A login that passes the drift and socket id checks but whose proof
    the verifier does not accept, or on which the verifier throws, is
    answered ["Invalid login"] after the one call of the verifier; the
    socket keeps what identity it had and the verifier's error is not
    passed on. *)
Theorem login_rejected_by_verifier :
  forall (ext : Externals) (sock : SCServerSocket) (req : LoginRequest)
         (proof : Proof) (rt : Runtime),
    truthy (req_pub req) = true ->
    req_proof req = Some proof ->
    exceeds_max_drift (process_env ext) (Date_getTime ext (ticks rt)) proof = false ->
    proof_socketId proof = Some (id sock) -> id sock <> "" ->
    verify ext (S (ticks rt)) proof (req_pub req) <> Resolved true ->
    authenticateLogin ext sock (Some req) rt =
    (sock,
     mkRuntime (events rt ++ [EvVerify proof (req_pub req);
                              EvRespond (RespondMessage "Invalid login")])%list
       (S (S (ticks rt)))).
Proof.
  intros ext sock req proof rt Hpub Hproof Hdrift Hsid Hid Hverify.
  rewrite (authenticateLogin_checks ext sock req proof) by assumption.
  rewrite checkProof_verified by assumption.
  destruct (verify ext (S (ticks rt)) proof (req_pub req)) as [[|]|e];
    [now elim Hverify|reflexivity|reflexivity].
Qed.

Lemma login_rejected_by_verifier_witness :
  let ext := sample_externals store_all in
  let proof := {| proof_m := Str "sock1/1700000000000";
                  proof_s := Str "forged" |} in
  let req := {| req_pub := Str "owner-pub"; req_proof := Some proof |} in
  exceeds_max_drift (process_env ext) (Date_getTime ext 0) proof = false
  /\ proof_socketId proof = Some "sock1"
  /\ verify ext 1 proof (Str "owner-pub") <> Resolved true
  /\ authenticateLogin ext (anonymous "sock1") (Some req) start =
     (anonymous "sock1",
      mkRuntime [EvVerify proof (Str "owner-pub");
                 EvRespond (RespondMessage "Invalid login")] 2).
Proof.
  intros ext proof req.
  assert (Hid : id (anonymous "sock1") <> "") by discriminate.
  assert (Hverify : verify ext (S (ticks start)) proof (req_pub req)
                    <> Resolved true) by discriminate.
  split; [reflexivity|]. split; [reflexivity|]. split; [exact Hverify|].
  exact (login_rejected_by_verifier ext (anonymous "sock1") req
           proof start eq_refl eq_refl eq_refl eq_refl Hid Hverify).
Defined.

(** X5.  [maxDrift] is never [NaN] and never zero: it is the number that
    [parseInt] reads from [SC_AUTH_MAX_DRIFT] when there is one and it is
    not zero (a negative one included, and infinity for a numeral beyond
    the doubles), and the default 300000 when the variable is unset, empty,
    not a numeral, or a numeral of zero. *)
Theorem maxDrift_configuration :
  forall env : ProcessEnv,
    maxDrift env <> NaN
    /\ maxDrift env <> Num 0
    /\ maxDrift env <> NegZero
    /\ (forall z, parseInt (SC_AUTH_MAX_DRIFT env) = Num z -> z <> 0%Z ->
        maxDrift env = Num z)
    /\ (forall s, parseInt (SC_AUTH_MAX_DRIFT env) = Infinity s ->
        maxDrift env = Infinity s)
    /\ (parseInt (SC_AUTH_MAX_DRIFT env) = NaN
        \/ parseInt (SC_AUTH_MAX_DRIFT env) = Num 0
        \/ parseInt (SC_AUTH_MAX_DRIFT env) = NegZero ->
        maxDrift env = Num 300000).
Proof.
  intros env.
  assert (Hcases : maxDrift env =
                   if number_truthy (parseInt (SC_AUTH_MAX_DRIFT env))
                   then parseInt (SC_AUTH_MAX_DRIFT env) else Num 300000).
  { unfold maxDrift. destruct (SC_AUTH_MAX_DRIFT env) as [v|]; cbn [string_truthy].
    - destruct (String.eqb_spec v "") as [->|Hne]; cbn [negb]; reflexivity.
    - reflexivity. }
  rewrite Hcases.
  destruct (parseInt (SC_AUTH_MAX_DRIFT env)) as [|z| |s]; cbn [number_truthy];
    [|destruct (Z.eqb_spec z 0) as [->|Hz]; cbn [negb]| |];
    (split; [congruence|]); (split; [congruence|]); (split; [congruence|]);
    (split; [congruence|]); (split; [congruence|]);
    intros [H|[H|H]]; congruence.
Qed.

(** Every way [authenticateLogin] can go on a request. *)
Lemma authenticateLogin_shapes (ext : Externals) (sock : SCServerSocket)
  (req : LoginRequest) (rt : Runtime) :
  (exists r n,
      r <> RespondOk
      /\ authenticateLogin ext sock (Some req) rt =
         (sock, mkRuntime (events rt ++ [EvRespond r])%list n))
  \/ (exists proof,
         truthy (req_pub req) = true /\ req_proof req = Some proof
         /\ proof_socketId proof = Some (id sock) /\ id sock <> ""
         /\ authenticateLogin ext sock (Some req) rt =
            (sock,
             mkRuntime (events rt ++ [EvVerify proof (req_pub req);
                                      EvRespond (RespondMessage "Invalid login")])%list
               (S (S (ticks rt)))))
  \/ (exists proof,
         truthy (req_pub req) = true /\ req_proof req = Some proof
         /\ proof_socketId proof = Some (id sock) /\ id sock <> ""
         /\ authenticateLogin ext sock (Some req) rt =
            ({| id := id sock;
                authToken := Some {| pub := req_pub req;
                                     timestamp := proof_timestamp proof |} |},
             mkRuntime (events rt ++ [EvVerify proof (req_pub req);
                                      EvSetAuthToken (id sock)
                                        {| pub := req_pub req;
                                           timestamp := proof_timestamp proof |};
                                      EvRespond RespondOk])%list
               (S (S (ticks rt))))).
Proof.
  destruct (req_proof req) as [proof|] eqn:Hproof.
  2:{ left. eexists _, _.
      split; [|unfold authenticateLogin; rewrite Hproof; reflexivity].
      discriminate. }
  destruct (truthy (req_pub req)) eqn:Hpub.
  2:{ left. eexists _, _.
      split; [|unfold authenticateLogin; rewrite Hproof, Hpub; reflexivity].
      discriminate. }
  rewrite (authenticateLogin_checks ext sock req proof) by assumption.
  destruct (proof_m proof) as [|m|t shown] eqn:Hm.
  1,3: left; eexists _, _;
       (split; [|apply checkProof_no_message; intros m'; rewrite Hm; discriminate]);
       discriminate.
  destruct (exceeds_max_drift (process_env ext) (Date_getTime ext (ticks rt)) proof)
    eqn:Hdrift.
  { left. eexists _, _. split; [|now apply checkProof_drift]. discriminate. }
  destruct (proof_socketId proof) as [sid|] eqn:Hsid.
  2:{ left. eexists _, _.
      split; [|apply (checkProof_mismatch _ _ _ _ m); [assumption|assumption|]].
      - discriminate.
      - left. rewrite Hsid. discriminate. }
  destruct (String.eqb_spec sid (id sock)) as [->|Hother].
  2:{ left. eexists _, _.
      split; [|apply (checkProof_mismatch _ _ _ _ m); [assumption|assumption|]].
      - discriminate.
      - left. rewrite Hsid. congruence. }
  destruct (String.eqb_spec (id sock) "") as [Hempty|Hid].
  { left. eexists _, _.
    split; [|apply (checkProof_mismatch _ _ _ _ m); [assumption|assumption|]].
    - discriminate.
    - right. now rewrite Hsid, Hempty. }
  rewrite checkProof_verified by assumption.
  destruct (verify ext (S (ticks rt)) proof (req_pub req)) as [[|]|e].
  - right. right. exists proof. repeat split; assumption.
  - right. left. exists proof. repeat split; assumption.
  - right. left. exists proof. repeat split; assumption.
Qed.

(** X6.  A login event that carries a request is answered exactly once, as
    the last thing the handler does; the answer is the success answer
    exactly when an identity was attached to the socket, and the id of the
    socket is never changed.  A login event that carries no request at all
    is never answered: reading [req.pub] throws before the [try], the
    promise of the handler rejects, and the socket is left as it was. *)
Theorem login_answered_once :
  forall (ext : Externals) (sock : SCServerSocket)
         (payload : option LoginRequest) (rt : Runtime),
    match payload with
    | Some req =>
        exists r before,
          new_events (authenticateLogin ext sock (Some req)) rt
          = (before ++ [EvRespond r])%list
          /\ filter is_respond before = []
          /\ id (result (authenticateLogin ext sock (Some req)) rt) = id sock
          /\ (r = RespondOk <->
              exists token,
                In (EvSetAuthToken (id sock) token) before
                /\ authToken (result (authenticateLogin ext sock (Some req)) rt)
                   = Some token)
    | None =>
        exists e,
          new_events (authenticateLogin ext sock None) rt = [EvUnhandledRejection e]
          /\ result (authenticateLogin ext sock None) rt = sock
    end.
Proof.
  intros ext sock [req|] rt.
  2:{ eexists. split; [|reflexivity].
      eapply new_events_suffix. reflexivity. }
  destruct (authenticateLogin_shapes ext sock req rt)
    as [[r [n [Hr Hrun]]]
       |[[proof [_ [_ [_ [_ Hrun]]]]]
        |[proof [_ [_ [_ [_ Hrun]]]]]]];
    unfold result; rewrite (new_events_suffix _ _ _ _ _ Hrun), Hrun; cbn [fst].
  - exists r, []. repeat split; try reflexivity.
    + intros ->. now elim Hr.
    + intros [token [[] _]].
  - exists (RespondMessage "Invalid login"), [EvVerify proof (req_pub req)].
    repeat split; try reflexivity.
    + discriminate.
    + intros [token [[H|[]] _]]. discriminate.
  - eexists RespondOk, [EvVerify proof (req_pub req); EvSetAuthToken (id sock) _].
    repeat split; try reflexivity.
    intros _. eexists. split; [right; left; reflexivity|reflexivity].
Qed.

Lemma socketId_without_slash (proof : Proof) (socketId : string) :
  proof_socketId proof = Some socketId -> contains "/" socketId = false.
Proof.
  unfold proof_socketId.
  destruct (proof_m proof) as [|m|t shown]; [discriminate| |discriminate].
  apply first_part_without.
Qed.

(** X7.  On a socket whose id is empty or holds a slash no login can
    succeed: whatever the request, the answer is not the success answer,
    the verifier is not called and the socket is left as it was. *)
Theorem login_impossible_on_unsplittable_id :
  forall (ext : Externals) (sock : SCServerSocket) (req : LoginRequest)
         (rt : Runtime),
    id sock = "" \/ contains "/" (id sock) = true ->
    exists r,
      r <> RespondOk
      /\ new_events (authenticateLogin ext sock (Some req)) rt = [EvRespond r]
      /\ result (authenticateLogin ext sock (Some req)) rt = sock.
Proof.
  intros ext sock req rt Hbad.
  destruct (authenticateLogin_shapes ext sock req rt)
    as [[r [n [Hr Hrun]]]
       |[[proof [_ [_ [Hsid [Hid _]]]]]
        |[proof [_ [_ [Hsid [Hid _]]]]]]].
  - exists r. unfold result.
    rewrite (new_events_suffix _ _ _ _ _ Hrun), Hrun. now repeat split.
  - exfalso. destruct Hbad as [Hempty|Hslash]; [contradiction|].
    apply socketId_without_slash in Hsid. congruence.
  - exfalso. destruct Hbad as [Hempty|Hslash]; [contradiction|].
    apply socketId_without_slash in Hsid. congruence.
Qed.

Lemma login_impossible_on_unsplittable_id_witness :
  let ext := sample_externals store_all in
  let sock := anonymous "node/7" in
  let req := {| req_pub := Str "alice-pub";
                req_proof := Some (sample_proof "alice-pub" "node/7/1700000000000") |} in
  (id sock = "" \/ contains "/" (id sock) = true)
  /\ verify ext 1 (sample_proof "alice-pub" "node/7/1700000000000") (Str "alice-pub")
     = Resolved true
  /\ exists r,
      r <> RespondOk
      /\ new_events (authenticateLogin ext sock (Some req)) start = [EvRespond r]
      /\ result (authenticateLogin ext sock (Some req)) start = sock.
Proof.
  intros ext sock req.
  assert (Hbad : id sock = "" \/ contains "/" (id sock) = true)
    by (right; reflexivity).
  split; [exact Hbad|]. split; [reflexivity|].
  exact (login_impossible_on_unsplittable_id ext sock req start Hbad).
Defined.

(** ** Subscribing *)

Lemma drop_prefix_some (p s rest : string) :
  drop_prefix p s = Some rest -> s = p ++ rest.
Proof.
  revert s. induction p as [|a p' IH]; intros s; cbn [drop_prefix append].
  - intros H. now inversion H.
  - destruct s as [|b s']; [discriminate|].
    destruct (Ascii.eqb_spec a b) as [->|_]; [|discriminate].
    intros H. now rewrite (IH s' H).
Qed.

Lemma replace_prefix_cases (p s : string) :
  replace_prefix p s = s \/ s = p ++ replace_prefix p s.
Proof.
  unfold replace_prefix. destruct (drop_prefix p s) as [rest|] eqn:Hdrop.
  - right. now apply drop_prefix_some.
  - now left.
Qed.

(** Every way [subscribeMiddleware] can go. *)
Lemma subscribeMiddleware_shapes (ext : Externals) (req : MiddlewareRequest)
  (rt : Runtime) :
  (privileged (channel req) /\ ~ is_owner ext (socket req)
   /\ run (subscribeMiddleware ext req) rt =
      (events rt
         ++ [EvNext (Some ("You aren't allowed to subscribe to "
                             ++ channel req)%string)])%list)
  \/ ((forall soul, soul <> "" -> channel req <> "gun/nodes/" ++ soul)
      /\ run (subscribeMiddleware ext req) rt = (events rt ++ [EvNext None])%list)
  \/ (exists soul,
         soul <> "" /\ channel req = "gun/nodes/" ++ soul
         /\ run (subscribeMiddleware ext req) rt =
            (events rt
               ++ [EvNext None; EvAdapterGet soul]
               ++ match createAdapter_get ext (S (ticks rt)) soul with
                  | Resolved node =>
                      [EvSetTimeout 25
                         (EvSocketEmit (id (socket req)) "#publish" (channel req)
                            (seed_message (Math_random_base36 ext (ticks rt))
                               soul node))]
                  | Rejected e =>
                      [EvConsoleWarn e;
                       EvSetTimeout 25
                         (EvSocketEmit (id (socket req)) "#publish" (channel req)
                            (seed_error (Math_random_base36 ext (ticks rt)) req))]
                  end)%list).
Proof.
  destruct ((String.eqb (channel req) "gun/put"
             || String.eqb (channel req) "gun/get")
            && negb (isAdmin ext (socket req))) eqn:Hgate.
  - left. apply andb_true_iff in Hgate. destruct Hgate as [Hpriv Hadmin].
    apply privileged_eqb in Hpriv. apply negb_true_iff in Hadmin.
    split; [exact Hpriv|]. split; [now apply isAdmin_not_owner|].
    now apply subscribeMiddleware_refused.
  - destruct (replace_prefix_cases "gun/nodes/" (channel req)) as [Hsame|Hnode].
    + right. left. split.
      * intros soul Hsoul Hchan. rewrite Hchan, replace_prefix_nodes in Hsame.
        now apply (append_longer soul).
      * unfold run, subscribeMiddleware. rewrite Hgate, Hsame, String.eqb_refl.
        now rewrite orb_true_r.
    + destruct (String.eqb_spec (replace_prefix "gun/nodes/" (channel req)) "")
        as [Hempty|Hsoul].
      * right. left. split.
        -- intros soul Hsoul Hchan.
           rewrite Hchan, replace_prefix_nodes in Hempty. contradiction.
        -- unfold run, subscribeMiddleware. now rewrite Hgate, Hempty.
      * right. right. exists (replace_prefix "gun/nodes/" (channel req)).
        split; [exact Hsoul|]. split; [exact Hnode|].
        now apply subscribe_seed_order.
Qed.

(** X8.  A subscription to the channel of a soul, by any connection,
    asks the store for that soul once and arms one 25 ms timer whose
    callback emits one message to the subscribing socket on the subscribed
    channel: [put: {soul: node}] when the store has the node, [put: null]
    when it has none, and [err: "Error fetching node"] when the fetch
    fails, the failure being logged and not put in the message. *)
Theorem subscribe_seeds_node :
  forall (ext : Externals) (req : MiddlewareRequest) (soul : string)
         (rt : Runtime),
    channel req = "gun/nodes/" ++ soul -> soul <> "" ->
    exists msg warned,
      new_events (subscribeMiddleware ext req) rt =
      ([EvNext None; EvAdapterGet soul] ++ warned
         ++ [EvSetTimeout 25
               (EvSocketEmit (id (socket req)) "#publish" (channel req) msg)])%list
      /\ msg_hash msg = Some (Math_random_base36 ext (ticks rt))
      /\ msg_ok msg = None
      /\ match createAdapter_get ext (S (ticks rt)) soul with
         | Resolved (Some node) =>
             warned = [] /\ msg_put msg = Present [(soul, Some node)]
             /\ msg_err msg = Absent
         | Resolved None =>
             warned = [] /\ msg_put msg = Null /\ msg_err msg = Absent
         | Rejected e =>
             warned = [EvConsoleWarn e] /\ msg_put msg = Absent
             /\ msg_err msg = Present "Error fetching node"
         end.
Proof.
  intros ext req soul rt Hchan Hsoul.
  pose proof (subscribe_seed_order ext req soul rt Hchan Hsoul) as Hrun.
  destruct (run_shape _ _ _ Hrun) as [u [n Heq]].
  rewrite (new_events_suffix _ _ _ _ _ Heq).
  destruct (createAdapter_get ext (S (ticks rt)) soul) as [[node|]|e].
  - eexists _, []. repeat split.
  - eexists _, []. repeat split.
  - eexists _, [_]. repeat split.
Qed.

Lemma subscribe_seeds_node_witness :
  let ext := sample_externals store_all in
  let req := {| channel := "gun/nodes/soulX"; socket := anonymous "sock1";
                data := Absent; req_hash := None |} in
  channel req = "gun/nodes/" ++ "soulX"
  /\ "soulX" <> ""
  /\ exists msg,
      new_events (subscribeMiddleware ext req) start =
      [EvNext None; EvAdapterGet "soulX";
       EvSetTimeout 25 (EvSocketEmit "sock1" "#publish" "gun/nodes/soulX" msg)]
      /\ msg_put msg = Null.
Proof.
  intros ext req.
  assert (Hsoul : "soulX" <> "") by discriminate.
  split; [reflexivity|]. split; [exact Hsoul|].
  destruct (subscribe_seeds_node ext req "soulX" start eq_refl Hsoul)
    as [msg [warned [Hrun [_ [_ [Hwarned [Hput _]]]]]]].
  exists msg. rewrite Hrun, Hwarned. split; [reflexivity|exact Hput].
Defined.

(** X9.  A subscription that is let through on a channel that is not
    ["gun/nodes/"] followed by a non-empty soul only calls [next()]: the
    store is not asked and nothing is emitted. *)
Theorem subscribe_without_seed :
  forall (ext : Externals) (req : MiddlewareRequest) (rt : Runtime),
    (forall soul, soul <> "" -> channel req <> "gun/nodes/" ++ soul) ->
    (privileged (channel req) -> is_owner ext (socket req)) ->
    run (subscribeMiddleware ext req) rt = (events rt ++ [EvNext None])%list.
Proof.
  intros ext req rt Hother Hallowed.
  destruct (subscribeMiddleware_shapes ext req rt)
    as [[Hpriv [Hnot _]]|[[_ Hrun]|[soul [Hsoul [Hchan _]]]]].
  - elim Hnot. now apply Hallowed.
  - exact Hrun.
  - elim (Hother soul Hsoul Hchan).
Qed.

Lemma subscribe_without_seed_witness :
  let ext := sample_externals store_all in
  let req := {| channel := "gun/nodes/"; socket := anonymous "sock1";
                data := Absent; req_hash := None |} in
  (forall soul, soul <> "" -> channel req <> "gun/nodes/" ++ soul)
  /\ (privileged (channel req) -> is_owner ext (socket req))
  /\ run (subscribeMiddleware ext req) start = [EvNext None].
Proof.
  intros ext req.
  assert (Hother : forall soul, soul <> "" ->
                                channel req <> "gun/nodes/" ++ soul).
  { intros soul Hsoul Hchan. cbn in Hchan. inversion Hchan. now elim Hsoul. }
  assert (Hallowed : privileged (channel req) -> is_owner ext (socket req)).
  { intros [H|H]; discriminate. }
  split; [exact Hother|]. split; [exact Hallowed|].
  exact (subscribe_without_seed ext req start Hother Hallowed).
Defined.

(** X10.  Each of the two middlewares calls [next] exactly once, before
    anything else it does, and does nothing more after refusing.  A
    subscription never writes to the store, never publishes on the exchange
    and emits nothing to the socket before its timer fires. *)
Theorem middleware_calls_next_once :
  forall (ext : Externals) (req : MiddlewareRequest) (rt : Runtime),
    (exists err rest,
        new_events (subscribeMiddleware ext req) rt = EvNext err :: rest
        /\ decision rest = []
        /\ (err <> None -> rest = [])
        /\ filter is_publish rest = []
        /\ filter is_adapter_put rest = []
        /\ filter is_socket_emit rest = [])
    /\ (exists err rest,
           new_events (publishInMiddleware ext req) rt = EvNext err :: rest
           /\ decision rest = []
           /\ (err <> None -> rest = [])).
Proof.
  intros ext req rt. split.
  - destruct (subscribeMiddleware_shapes ext req rt)
      as [[_ [_ Hrun]]|[[_ Hrun]|[soul [_ [_ Hrun]]]]];
      destruct (run_shape _ _ _ Hrun) as [u [n Heq]];
      rewrite (new_events_suffix _ _ _ _ _ Heq).
    + eexists _, []. repeat split.
    + eexists _, []. repeat split.
    + eexists None, _. split; [reflexivity|].
      destruct (createAdapter_get ext (S (ticks rt)) soul) as [node|e];
        repeat split; intros H; now elim H.
  - destruct (String.eqb_spec (channel req) "gun/put") as [Hchan|Hchan].
    + destruct (has_put (data req)) as [m|] eqn:Hhas.
      * destruct (has_put_some _ _ Hhas) as [Hdata [graphData Hput]].
        destruct (publishInMiddleware_write_trace ext req m graphData rt
                    Hchan Hdata Hput) as [fanout [Hrun [Hpub _]]].
        destruct (run_shape _ _ _ Hrun) as [u [n Heq]].
        rewrite (new_events_suffix _ _ _ _ _ Heq).
        eexists None, _. split; [reflexivity|]. split.
        -- change (EvAdapterPut graphData :: ?l)
             with ([EvAdapterPut graphData] ++ l)%list.
           now rewrite !decision_app, (decision_publications fanout Hpub).
        -- intros H. now elim H.
      * pose proof (publishInMiddleware_no_put ext req rt Hchan Hhas) as Hrun.
        destruct (run_shape _ _ _ Hrun) as [u [n Heq]].
        rewrite (new_events_suffix _ _ _ _ _ Heq).
        eexists _, []. repeat split.
    + pose proof (publishInMiddleware_other_channel ext req rt Hchan) as Hrun.
      destruct (run_shape _ _ _ Hrun) as [u [n Heq]].
      rewrite (new_events_suffix _ _ _ _ _ Heq).
      eexists _, []. repeat split.
Qed.

(** ** Writing *)

Lemma adapter_put_nonempty (ext : Externals) (graphData d : GunGraphData)
  (rt : Runtime) :
  createAdapter_put ext (ticks rt) graphData = Resolved (Some d) -> d <> [] ->
  put (adapter ext) graphData rt =
  (Resolved (Some d),
   mkRuntime
     (events rt ++ EvAdapterPut graphData
        :: per_soul_publications (Some (pseudoRandomText ext (S (ticks rt)))) d
        ++ [EvExchangePublish "gun/put/diff"
              (diff_message (pseudoRandomText ext (S (ticks rt))) d)])%list
     (S (S (ticks rt)))).
Proof.
  intros Hstore Hd.
  unfold adapter, wrapAdapter, setupAdapter; cbn [put].
  unfold bind at 1. unfold bind at 1. unfold emit, ask. cbn [events ticks].
  rewrite Hstore. destruct d as [|entry rest]; [now elim Hd|].
  cbn [keys map length Nat.eqb]. unfold bind, ask. cbn [events ticks].
  rewrite (publishDiff_trace _ (entry :: rest)) by reflexivity.
  cbn [events ticks ret msg_hash diff_message].
  now rewrite <- app_assoc.
Qed.

Lemma adapter_put_rejected (ext : Externals) (graphData : GunGraphData)
  (e : string) (rt : Runtime) :
  createAdapter_put ext (ticks rt) graphData = Rejected e ->
  put (adapter ext) graphData rt =
  (Rejected e,
   mkRuntime (events rt ++ [EvAdapterPut graphData])%list (S (ticks rt))).
Proof.
  intros Hstore.
  unfold adapter, wrapAdapter, setupAdapter; cbn [put].
  unfold bind at 1. unfold bind at 1. unfold emit, ask. cbn [events ticks].
  now rewrite Hstore.
Qed.

Lemma publishInMiddleware_unfolded (ext : Externals) (req : MiddlewareRequest)
  (msg : GunMsg) (graphData : GunGraphData) (rt : Runtime) :
  channel req = "gun/put" ->
  data req = Present msg ->
  msg_put msg = Present graphData ->
  run (publishInMiddleware ext req) rt =
  let '(outcome, rt') :=
    put (adapter ext) graphData
      (mkRuntime (events rt ++ [EvNext None])%list (S (ticks rt))) in
  (events rt'
     ++ [EvSocketEmit (id (socket req)) "#publish"
           ("gun/@" ++ template (msg_hash msg))
           (acknowledgment (pseudoRandomText ext (ticks rt)) msg
              (settled_well outcome))])%list.
Proof.
  intros Hchan Hdata Hput.
  unfold run, publishInMiddleware. rewrite Hchan, Hdata.
  cbn [String.eqb Ascii.eqb Bool.eqb negb has_put]. rewrite Hput.
  unfold next. rewrite run_bind_emit.
  unfold bind at 1. unfold processPut. rewrite Hput.
  unfold bind at 1. unfold ask at 1. cbn [events ticks]. unfold bind at 1.
  destruct (put (adapter ext) graphData
              (mkRuntime (events rt ++ [EvNext None])%list (S (ticks rt))))
    as [[diff|e] rt']; reflexivity.
Qed.

(** X11.  A publish on ["gun/put"] whose data is missing, null, or a
    message without a [put] is let through and that is all: the store is
    not called and no acknowledgment is emitted. *)
Theorem publish_without_put :
  forall (ext : Externals) (req : MiddlewareRequest) (rt : Runtime),
    channel req = "gun/put" ->
    (forall msg graphData,
        data req = Present msg -> msg_put msg <> Present graphData) ->
    run (publishInMiddleware ext req) rt = (events rt ++ [EvNext None])%list.
Proof.
  intros ext req rt Hchan Hnone.
  apply publishInMiddleware_no_put; [exact Hchan|].
  destruct (has_put (data req)) as [m|] eqn:Hhas; [|reflexivity].
  destruct (has_put_some _ _ Hhas) as [Hdata [graphData Hput]].
  elim (Hnone m graphData Hdata Hput).
Qed.

Lemma publish_without_put_witness :
  let ext := sample_externals store_all in
  let ping := {| msg_hash := Some "q2"; msg_at := None; msg_put := Null;
                 msg_err := Absent; msg_ok := None |} in
  let req := {| channel := "gun/put"; socket := anonymous "sock1";
                data := Present ping; req_hash := None |} in
  channel req = "gun/put"
  /\ (forall msg graphData,
         data req = Present msg -> msg_put msg <> Present graphData)
  /\ run (publishInMiddleware ext req) start = [EvNext None].
Proof.
  intros ext ping req.
  assert (Hnone : forall msg graphData,
             data req = Present msg -> msg_put msg <> Present graphData).
  { intros msg graphData Hdata. inversion Hdata; subst. discriminate. }
  split; [reflexivity|]. split; [exact Hnone|].
  exact (publish_without_put ext req start eq_refl Hnone).
Defined.

(** X12.  [processPut] on a message without a [put] does not call the
    store and still returns the acknowledgment of a success, with a new id
    and ['@'] set to the id of the message. *)
Theorem processPut_without_put :
  forall (ext : Externals) (msg : GunMsg) (rt : Runtime),
    (forall graphData, msg_put msg <> Present graphData) ->
    processPut ext msg rt =
    ({| msg_hash := Some (pseudoRandomText ext (ticks rt));
        msg_at := msg_hash msg;
        msg_put := Absent;
        msg_err := Null;
        msg_ok := Some true |},
     mkRuntime (events rt) (S (ticks rt))).
Proof.
  intros ext msg rt Hnone. unfold processPut.
  destruct (msg_put msg) as [| |graphData]; try reflexivity.
  now elim (Hnone graphData).
Qed.

Lemma processPut_without_put_witness :
  let ext := sample_externals store_down in
  let ping := {| msg_hash := Some "q2"; msg_at := None; msg_put := Absent;
                 msg_err := Absent; msg_ok := None |} in
  (forall graphData, msg_put ping <> Present graphData)
  /\ msg_ok (result (processPut ext ping) start) = Some true.
Proof.
  intros ext ping.
  assert (Hnone : forall graphData, msg_put ping <> Present graphData)
    by (intros graphData; discriminate).
  split; [exact Hnone|].
  unfold result. now rewrite (processPut_without_put ext ping start Hnone).
Defined.

(** X13.  A publish on ["gun/put"] whose write the store answers with a
    non-empty diff does, in this order: [next()], the store's write, the
    fan-out of the diff the store returned (not of the data that was
    written) under an id drawn after the write, and last the success
    acknowledgment to the publishing socket. *)
Theorem write_fans_out_then_acknowledges :
  forall (ext : Externals) (req : MiddlewareRequest) (msg : GunMsg)
         (graphData diff : GunGraphData) (rt : Runtime),
    channel req = "gun/put" ->
    data req = Present msg ->
    msg_put msg = Present graphData ->
    createAdapter_put ext (S (ticks rt)) graphData = Resolved (Some diff) ->
    diff <> [] ->
    let diffId := pseudoRandomText ext (S (S (ticks rt))) in
    new_events (publishInMiddleware ext req) rt =
    ([EvNext None; EvAdapterPut graphData]
       ++ per_soul_publications (Some diffId) diff
       ++ [EvExchangePublish "gun/put/diff" (diff_message diffId diff);
           EvSocketEmit (id (socket req)) "#publish"
             ("gun/@" ++ template (msg_hash msg))
             (acknowledgment (pseudoRandomText ext (ticks rt)) msg true)])%list.
Proof.
  intros ext req msg graphData diff rt Hchan Hdata Hput Hstore Hdiff diffId.
  pose proof (publishInMiddleware_unfolded ext req msg graphData rt
                Hchan Hdata Hput) as Hrun.
  rewrite (adapter_put_nonempty ext graphData diff) in Hrun by assumption.
  cbn [events ticks settled_well] in Hrun.
  assert (Hshape : run (publishInMiddleware ext req) rt =
                   (events rt
                      ++ [EvNext None; EvAdapterPut graphData]
                      ++ per_soul_publications (Some diffId) diff
                      ++ [EvExchangePublish "gun/put/diff"
                            (diff_message diffId diff);
                          EvSocketEmit (id (socket req)) "#publish"
                            ("gun/@" ++ template (msg_hash msg))
                            (acknowledgment (pseudoRandomText ext (ticks rt))
                               msg true)])%list).
  { rewrite Hrun. subst diffId. rewrite <- !app_assoc. cbn [app].
    rewrite <- !app_assoc. reflexivity. }
  destruct (run_shape _ _ _ Hshape) as [u [n Heq]].
  exact (new_events_suffix _ _ _ _ _ Heq).
Qed.

Lemma write_fans_out_then_acknowledges_witness :
  let ext := sample_externals store_all in
  let req := {| channel := "gun/put"; socket := anonymous "sock1";
                data := Present put_alice; req_hash := None |} in
  createAdapter_put ext 1 [("soulX", Some alice)]
  = Resolved (Some [("soulX", Some alice)])
  /\ new_events (publishInMiddleware ext req) start =
     [EvNext None;
      EvAdapterPut [("soulX", Some alice)];
      EvExchangePublish "gun/nodes/soulX"
        (node_message (Some "text2") "soulX" alice);
      EvExchangePublish "gun/put/diff"
        (diff_message "text2" [("soulX", Some alice)]);
      EvSocketEmit "sock1" "#publish" "gun/@q1"
        (acknowledgment "text0" put_alice true)].
Proof.
  intros ext req. split; [reflexivity|].
  assert (Hdiff : [("soulX", Some alice)] <> ([] : GunGraphData))
    by discriminate.
  exact (write_fans_out_then_acknowledges ext req put_alice
           [("soulX", Some alice)] [("soulX", Some alice)] start
           eq_refl eq_refl eq_refl eq_refl Hdiff).
Defined.

(** X14.  A publish on ["gun/put"] whose write the store rejects publishes
    nothing on the exchange: after [next()] and the store's write the only
    thing that happens is the failure acknowledgment to the publishing
    socket. *)
Theorem rejected_write_not_fanned_out :
  forall (ext : Externals) (req : MiddlewareRequest) (msg : GunMsg)
         (graphData : GunGraphData) (e : string) (rt : Runtime),
    channel req = "gun/put" ->
    data req = Present msg ->
    msg_put msg = Present graphData ->
    createAdapter_put ext (S (ticks rt)) graphData = Rejected e ->
    new_events (publishInMiddleware ext req) rt =
    [EvNext None;
     EvAdapterPut graphData;
     EvSocketEmit (id (socket req)) "#publish"
       ("gun/@" ++ template (msg_hash msg))
       (acknowledgment (pseudoRandomText ext (ticks rt)) msg false)].
Proof.
  intros ext req msg graphData e rt Hchan Hdata Hput Hstore.
  pose proof (publishInMiddleware_unfolded ext req msg graphData rt
                Hchan Hdata Hput) as Hrun.
  rewrite (adapter_put_rejected ext graphData e) in Hrun by assumption.
  cbn [events ticks settled_well] in Hrun.
  rewrite <- !app_assoc in Hrun. cbn [app] in Hrun.
  destruct (run_shape _ _ _ Hrun) as [u [n Heq]].
  exact (new_events_suffix _ _ _ _ _ Heq).
Qed.

Lemma rejected_write_not_fanned_out_witness :
  let ext := sample_externals store_down in
  let req := {| channel := "gun/put"; socket := anonymous "sock1";
                data := Present put_alice; req_hash := None |} in
  createAdapter_put ext 1 [("soulX", Some alice)]
  = Rejected "ECONNREFUSED 10.0.0.7:6379"
  /\ new_events (publishInMiddleware ext req) start =
     [EvNext None;
      EvAdapterPut [("soulX", Some alice)];
      EvSocketEmit "sock1" "#publish" "gun/@q1"
        (acknowledgment "text0" put_alice false)].
Proof.
  intros ext req. split; [reflexivity|].
  exact (rejected_write_not_fanned_out ext req put_alice
           [("soulX", Some alice)] "ECONNREFUSED 10.0.0.7:6379" start
           eq_refl eq_refl eq_refl eq_refl).
Defined.

(** X15.  The wrapped adapter is transparent to its caller: [put] returns
    what the store's [put] settled with, diff or error, whatever is
    published on the way, and [get] is the store's [get], so [readNode]
    makes that one call and nothing else. *)
Theorem wrapped_adapter_transparent :
  forall (ext : Externals) (rt : Runtime),
    (forall graphData,
        result (put (adapter ext) graphData) rt =
        createAdapter_put ext (ticks rt) graphData)
    /\ (forall soul,
           readNode ext soul rt =
           (createAdapter_get ext (ticks rt) soul,
            mkRuntime (events rt ++ [EvAdapterGet soul])%list (S (ticks rt)))).
Proof.
  intros ext rt. split.
  - intros graphData.
    destruct (adapter_put_trace ext graphData rt) as [fanout [n [Hrun _]]].
    unfold result. now rewrite Hrun.
  - intros soul. reflexivity.
Qed.

Lemma entries_publications (msgId : option string) (diff : GunGraphData) :
  NoDup (keys diff) ->
  forall entries,
    (forall entry, In entry entries -> In entry diff) ->
    flat_map (soul_publications msgId diff) (keys entries) =
    flat_map (entry_publication msgId) entries.
Proof.
  intros Hnd. induction entries as [|[soul delta] rest IH]; intros Hsub;
    [reflexivity|].
  cbn [keys map fst flat_map]. fold (keys rest).
  rewrite IH by (intros entry Hin; apply Hsub; now right).
  f_equal.
  assert (Hget : get_prop diff soul = Some delta)
    by (apply get_prop_in; [exact Hnd|apply Hsub; now left]).
  unfold soul_publications, run, publishDiff_soul, entry_publication.
  rewrite Hget. destruct (String.eqb soul ""); destruct delta; reflexivity.
Qed.

(** X16.  [publishDiff] publishes the per-soul messages in the order in
    which the diff lists its souls, one entry after the other, and so never
    more of them than the diff has entries. *)
Theorem publishDiff_in_diff_order :
  forall (msg : GunMsg) (diff : GunGraphData) (rt : Runtime),
    msg_put msg = Present diff ->
    NoDup (keys diff) ->
    new_events (publishDiff msg) rt =
    (flat_map (entry_publication (msg_hash msg)) diff
       ++ [EvExchangePublish "gun/put/diff" msg])%list
    /\ length (new_events (publishDiff msg) rt) <= S (length diff).
Proof.
  intros msg diff rt Hput Hnd.
  rewrite (new_events_suffix _ _ _ _ _ (publishDiff_trace msg diff rt Hput)).
  unfold per_soul_publications.
  rewrite (entries_publications (msg_hash msg) diff Hnd diff) by auto.
  split; [reflexivity|].
  rewrite length_app. cbn [length].
  assert (Hlen : length (flat_map (entry_publication (msg_hash msg)) diff)
                 <= length diff).
  { clear. induction diff as [|[soul delta] rest IH]; cbn [flat_map length];
      [lia|].
    rewrite length_app. unfold entry_publication at 1.
    destruct delta; [destruct (String.eqb soul "")|]; cbn [length]; lia. }
  lia.
Qed.

Lemma publishDiff_in_diff_order_witness :
  let bob : GunNode := [("name", "Bob")] in
  let diff : GunGraphData :=
    [("zeta", Some alice); ("gone", None); ("alpha", Some bob)] in
  let msg := diff_message "w1" diff in
  NoDup (keys diff)
  /\ new_events (publishDiff msg) start =
     [EvExchangePublish "gun/nodes/zeta" (node_message (Some "w1") "zeta" alice);
      EvExchangePublish "gun/nodes/alpha" (node_message (Some "w1") "alpha" bob);
      EvExchangePublish "gun/put/diff" msg].
Proof.
  intros bob diff msg.
  assert (Hnd : NoDup (keys diff)).
  { repeat constructor; simpl; intuition discriminate. }
  split; [exact Hnd|].
  exact (proj1 (publishDiff_in_diff_order msg diff start eq_refl Hnd)).
Defined.

(** ** The owner *)

(** X17.  When [GUN_OWNER_PUB] is not set, [isAdmin] holds of exactly the
    connections whose identity carries no [pub] at all, both sides of the
    comparison being [undefined].  A connection with no identity, or with
    an identity that carries a key, is not the owner: its subscriptions to
    ["gun/put"] and ["gun/get"] and its publishes on a channel other than
    ["gun/put"] are refused.  A login never attaches an identity without a
    key, so it keeps a connection in this state. *)
Theorem no_owner_configured :
  forall (ext : Externals) (req : MiddlewareRequest) (rt : Runtime),
    GUN_OWNER_PUB (process_env ext) = None ->
    (isAdmin ext (socket req) = true <->
     exists token,
       authToken (socket req) = Some token /\ pub token = Undefined)
    /\ (carries_key (socket req) ->
        isAdmin ext (socket req) = false
        /\ (privileged (channel req) ->
            run (subscribeMiddleware ext req) rt =
            (events rt
               ++ [EvNext (Some ("You aren't allowed to subscribe to "
                                   ++ channel req)%string)])%list)
        /\ (channel req <> "gun/put" ->
            run (publishInMiddleware ext req) rt =
            (events rt
               ++ [EvNext (Some "You aren't allowed to write to this channel")])%list))
    /\ (forall (payload : option LoginRequest) (rt' : Runtime),
           carries_key (socket req) ->
           carries_key (result (authenticateLogin ext (socket req) payload) rt')).
Proof.
  intros ext req rt Hnone.
  assert (Hiff : isAdmin ext (socket req) = true <->
                 exists token,
                   authToken (socket req) = Some token /\ pub token = Undefined).
  { unfold isAdmin. rewrite Hnone.
    destruct (authToken (socket req)) as [token|].
    - destruct (pub token) as [|k|t shown] eqn:Hpub; cbn [strict_eq_value];
        split; try discriminate.
      + intros _. exists token. now split.
      + reflexivity.
      + intros [token' [Heq Hundef]]. inversion Heq; subst. congruence.
      + intros [token' [Heq Hundef]]. inversion Heq; subst. congruence.
    - split; [discriminate|]. intros [token [Heq _]]. discriminate. }
  split; [exact Hiff|]. split.
  - intros Hkey.
    assert (Hadmin : isAdmin ext (socket req) = false).
    { destruct (isAdmin ext (socket req)) eqn:Hadmin; [|reflexivity].
      destruct (proj1 Hiff eq_refl) as [token [Htoken Hundef]].
      now elim (Hkey token Htoken). }
    split; [exact Hadmin|]. split.
    + intros Hpriv. now apply subscribeMiddleware_refused.
    + intros Hchan. now rewrite publishInMiddleware_other_channel, Hadmin.
  - intros [req'|] rt' Hkey; [|exact Hkey].
    destruct (authenticateLogin_shapes ext (socket req) req' rt')
      as [[r [n [_ Hrun]]]
         |[[proof [_ [_ [_ [_ Hrun]]]]]
          |[proof [Hpub [_ [_ [_ Hrun]]]]]]];
      unfold result; rewrite Hrun; cbn [fst]; try exact Hkey.
    intros token Htoken. cbn [authToken] in Htoken.
    inversion Htoken; subst. cbn [pub].
    intros Hundef. rewrite Hundef in Hpub. discriminate.
Qed.

Lemma no_owner_configured_witness :
  let ext := ownerless_externals in
  let keyed := {| id := "sock1";
                  authToken := Some {| pub := Str "owner-pub";
                                       timestamp := Num 1700000000000 |} |} in
  let req := {| channel := "gun/get"; socket := keyed;
                data := Absent; req_hash := None |} in
  GUN_OWNER_PUB (process_env ext) = None
  /\ run (subscribeMiddleware ext req) start =
     [EvNext (Some "You aren't allowed to subscribe to gun/get")].
Proof.
  intros ext keyed req. split; [reflexivity|].
  assert (Hkey : carries_key (socket req)).
  { intros token Htoken. inversion Htoken. discriminate. }
  exact (proj1 (proj2 (proj1 (proj2 (no_owner_configured ext req start eq_refl))
                         Hkey))
           (or_intror eq_refl)).
Defined.

(** The other side of it: an identity without a key, which no login
    produces, is taken for the owner when no owner is configured. *)
Lemma identity_without_key_is_owner :
  let ext := ownerless_externals in
  let keyless := {| id := "sock1";
                    authToken := Some {| pub := Undefined;
                                         timestamp := Num 1700000000000 |} |} in
  isAdmin ext keyless = true
  /\ run (subscribeMiddleware ext
            {| channel := "gun/get"; socket := keyless;
               data := Absent; req_hash := None |}) start
     = [EvNext None].
Proof. split; reflexivity. Qed.

Lemma subscribeMiddleware_owner (ext : Externals) (req : MiddlewareRequest)
  (rt : Runtime) :
  privileged (channel req) ->
  isAdmin ext (socket req) = true ->
  run (subscribeMiddleware ext req) rt = (events rt ++ [EvNext None])%list.
Proof.
  intros Hpriv Hadmin. unfold run, subscribeMiddleware. rewrite Hadmin.
  destruct Hpriv as [-> | ->]; reflexivity.
Qed.

(** X18.  Logging in with the owner's key opens the privileged channels to
    the connection: after a login that succeeds with the key configured in
    [GUN_OWNER_PUB], the same connection's subscription to ["gun/put"] or
    ["gun/get"] is let through, and so is its publish on a channel other
    than ["gun/put"]. *)
Theorem owner_login_opens_privileged_channels :
  forall (ext : Externals) (sock : SCServerSocket) (req : LoginRequest)
         (pubkey : string) (proof : Proof) (rt : Runtime)
         (chan : string) (payload : field GunMsg),
    req_pub req = Str pubkey -> pubkey <> "" ->
    req_proof req = Some proof ->
    exceeds_max_drift (process_env ext) (Date_getTime ext (ticks rt)) proof = false ->
    proof_socketId proof = Some (id sock) -> id sock <> "" ->
    verify ext (S (ticks rt)) proof (Str pubkey) = Resolved true ->
    GUN_OWNER_PUB (process_env ext) = Some pubkey ->
    let token := {| pub := Str pubkey; timestamp := proof_timestamp proof |} in
    let logged_in := [EvVerify proof (Str pubkey);
                      EvSetAuthToken (id sock) token;
                      EvRespond RespondOk] in
    (privileged chan ->
     new_events (connection ext sock [Login (Some req); Subscribe chan]) rt =
     (logged_in ++ [EvNext None])%list)
    /\ (chan <> "gun/put" ->
        new_events (connection ext sock [Login (Some req); Publish chan payload]) rt =
        (logged_in ++ [EvNext None])%list).
Proof.
  intros ext sock req pubkey proof rt chan payload Hpub Hne Hproof Hdrift Hsid
         Hid Hverify Howner token logged_in.
  assert (Htruthy : truthy (req_pub req) = true).
  { rewrite Hpub. cbn [truthy]. now destruct (String.eqb_spec pubkey ""). }
  assert (Hlogin : authenticateLogin ext sock (Some req) rt =
                   ({| id := id sock; authToken := Some token |},
                    mkRuntime (events rt ++ logged_in)%list (S (S (ticks rt))))).
  { rewrite (authenticateLogin_checks ext sock req proof) by assumption.
    rewrite checkProof_verified by assumption.
    rewrite Hpub. now rewrite Hverify. }
  assert (Hadmin : isAdmin ext {| id := id sock; authToken := Some token |} = true).
  { unfold isAdmin. cbn [authToken pub token]. rewrite Howner.
    cbn [strict_eq_value]. apply String.eqb_refl. }
  split.
  - intros Hpriv.
    pose proof (subscribeMiddleware_owner ext
                  {| channel := chan;
                     socket := {| id := id sock; authToken := Some token |};
                     data := Absent; req_hash := None |}
                  (mkRuntime (events rt ++ logged_in)%list (S (S (ticks rt))))
                  Hpriv Hadmin) as Hrun.
    destruct (run_shape _ _ _ Hrun) as [u [n Heq]]. cbn [events] in Heq.
    eapply new_events_suffix.
    cbn [connection serve]. unfold bind. rewrite Hlogin, Heq.
    unfold ret. rewrite <- app_assoc. reflexivity.
  - intros Hchan.
    pose proof (publishInMiddleware_other_channel ext
                  {| channel := chan;
                     socket := {| id := id sock; authToken := Some token |};
                     data := payload; req_hash := None |}
                  (mkRuntime (events rt ++ logged_in)%list (S (S (ticks rt))))
                  Hchan) as Hrun.
    cbn [socket] in Hrun. rewrite Hadmin in Hrun.
    destruct (run_shape _ _ _ Hrun) as [u [n Heq]]. cbn [events] in Heq.
    eapply new_events_suffix.
    cbn [connection serve]. unfold bind. rewrite Hlogin, Heq.
    unfold ret. rewrite <- app_assoc. reflexivity.
Qed.

Lemma owner_login_opens_privileged_channels_witness :
  let ext := sample_externals store_all in
  let proof := sample_proof "owner-pub" "sock1/1700000000000" in
  let req := {| req_pub := Str "owner-pub"; req_proof := Some proof |} in
  run (subscribeMiddleware ext
         {| channel := "gun/put"; socket := anonymous "sock1";
            data := Absent; req_hash := None |}) start
  = [EvNext (Some "You aren't allowed to subscribe to gun/put")]
  /\ new_events (connection ext (anonymous "sock1")
                   [Login (Some req); Subscribe "gun/put"]) start
     = [EvVerify proof (Str "owner-pub");
        EvSetAuthToken "sock1"
          {| pub := Str "owner-pub"; timestamp := Num 1700000000000 |};
        EvRespond RespondOk;
        EvNext None].
Proof.
  intros ext proof req. split; [reflexivity|].
  assert (Hne : "owner-pub" <> "") by discriminate.
  assert (Hid : id (anonymous "sock1") <> "") by discriminate.
  exact (proj1 (owner_login_opens_privileged_channels ext (anonymous "sock1")
                  req "owner-pub" proof start "gun/put" Absent
                  eq_refl Hne eq_refl eq_refl eq_refl Hid eq_refl eq_refl)
           (or_introl eq_refl)).
Defined.

(** ** Ids of a fan-out *)

Lemma append_cancel (a x y : string) : a ++ x = a ++ y -> x = y.
Proof.
  induction a as [|c rest IH]; cbn [append]; [tauto|].
  intros H. inversion H. now apply IH.
Qed.

Lemma append_grows (a x : string) : a ++ String "/" x <> a.
Proof.
  induction a as [|c rest IH]; cbn [append]; [discriminate|].
  intros H. inversion H. now apply IH.
Qed.

Lemma entry_ids (msgId : string) (entries : GunGraphData) (i : option string) :
  In i (published_ids (flat_map (entry_publication (Some msgId)) entries)) ->
  exists soul, In soul (keys entries) /\ i = Some (msgId ++ "/" ++ soul).
Proof.
  induction entries as [|[soul delta] rest IH]; cbn [flat_map]; [contradiction|].
  unfold published_ids in *. rewrite flat_map_app, in_app_iff.
  intros [Hhere|Hrest].
  - exists soul. split; [now left|].
    unfold entry_publication in Hhere.
    destruct delta; [|contradiction].
    destruct (String.eqb soul ""); [contradiction|].
    destruct Hhere as [H|[]]. now rewrite <- H.
  - destruct (IH Hrest) as [soul' [Hin Heq]].
    exists soul'. split; [now right|exact Heq].
Qed.

(** X19.  Within one fan-out no two published messages have the same id:
    the per-soul messages of distinct souls have distinct ids, and none has
    the id of the broadcast. *)
Theorem fanout_ids_distinct :
  forall (msg : GunMsg) (msgId : string) (diff : GunGraphData) (rt : Runtime),
    msg_hash msg = Some msgId ->
    msg_put msg = Present diff ->
    NoDup (keys diff) ->
    NoDup (published_ids (new_events (publishDiff msg) rt)).
Proof.
  intros msg msgId diff rt Hid Hput Hnd.
  rewrite (new_events_suffix _ _ _ _ _ (publishDiff_trace msg diff rt Hput)).
  unfold per_soul_publications.
  rewrite (entries_publications (msg_hash msg) diff Hnd diff) by auto.
  rewrite Hid. unfold published_ids. rewrite flat_map_app.
  fold (published_ids (flat_map (entry_publication (Some msgId)) diff)).
  cbn [flat_map app]. rewrite Hid.
  apply NoDup_app.
  - clear Hput. induction diff as [|[soul delta] rest IH]; [constructor|].
    inversion Hnd as [|? ? Hnotin Hrest]; subst.
    cbn [flat_map]. unfold published_ids. rewrite flat_map_app.
    fold (published_ids (flat_map (entry_publication (Some msgId)) rest)).
    unfold entry_publication at 1.
    destruct delta; [|now apply IH].
    destruct (String.eqb soul ""); [now apply IH|].
    cbn [flat_map app msg_hash node_message template].
    constructor; [|now apply IH].
    intros Hin. destruct (entry_ids msgId rest _ Hin) as [soul' [Hin' Heq]].
    inversion Heq as [Heq']. apply append_cancel in Heq'.
    inversion Heq'. subst soul'. contradiction.
  - constructor; [intros []|constructor].
  - intros i Hin [Hlast|[]]. subst i.
    destruct (entry_ids msgId diff _ Hin) as [soul [_ Heq]].
    inversion Heq as [Heq']. symmetry in Heq'.
    now apply (append_grows msgId soul).
Qed.

Lemma fanout_ids_distinct_witness :
  let bob : GunNode := [("name", "Bob")] in
  let diff : GunGraphData := [("A", Some alice); ("B", Some bob)] in
  let msg := diff_message "w1" diff in
  NoDup (keys diff)
  /\ published_ids (new_events (publishDiff msg) start)
     = [Some "w1/A"; Some "w1/B"; Some "w1"]
  /\ NoDup (published_ids (new_events (publishDiff msg) start)).
Proof.
  intros bob diff msg.
  assert (Hnd : NoDup (keys diff)).
  { repeat constructor; simpl; intuition discriminate. }
  split; [exact Hnd|]. split; [reflexivity|].
  exact (fanout_ids_distinct msg "w1" diff start eq_refl eq_refl Hnd).
Defined.

(** ** A misconfigured drift *)

(** X20.  With a negative [SC_AUTH_MAX_DRIFT] every login that carries a
    public key and a proof with an integer timestamp is refused for clock
    drift, whatever the clock, the socket and the signature are. *)
Theorem negative_max_drift_refuses_timestamped_logins :
  forall (ext : Externals) (sock : SCServerSocket) (req : LoginRequest)
         (proof : Proof) (ts limit : Z) (rt : Runtime),
    maxDrift (process_env ext) = Num limit -> (limit < 0)%Z ->
    truthy (req_pub req) = true ->
    req_proof req = Some proof ->
    proof_timestamp proof = Num ts ->
    authenticateLogin ext sock (Some req) rt =
    (sock,
     mkRuntime
       (events rt ++ [EvRespond (RespondError "Exceeded max clock drift")])%list
       (S (ticks rt))).
Proof.
  intros ext sock req proof ts limit rt Hlimit Hneg Hpub Hproof Hts.
  rewrite (authenticateLogin_checks ext sock req proof) by assumption.
  apply checkProof_drift. unfold exceeds_max_drift.
  rewrite Hts, Hlimit. cbn [number_sub].
  destruct (round_double_not_nan (Date_getTime ext (ticks rt) - ts))
    as [[w Hw]|[s Hs]].
  - rewrite Hw. cbn [Math_abs number_gt]. apply Z.ltb_lt. lia.
  - rewrite Hs. reflexivity.
Qed.

Lemma negative_max_drift_refuses_timestamped_logins_witness :
  let ext := negative_drift_externals in
  let proof := sample_proof "owner-pub" "sock1/1700000000010" in
  let req := {| req_pub := Str "owner-pub"; req_proof := Some proof |} in
  maxDrift (process_env ext) = Num (-1)
  /\ Date_getTime ext 0 = 1700000000010%Z
  /\ proof_timestamp proof = Num 1700000000010
  /\ authenticateLogin ext (anonymous "sock1") (Some req) start =
     (anonymous "sock1",
      mkRuntime [EvRespond (RespondError "Exceeded max clock drift")] 1).
Proof.
  intros ext proof req.
  assert (Hneg : (-1 < 0)%Z) by reflexivity.
  repeat (split; [reflexivity|]).
  exact (negative_max_drift_refuses_timestamped_logins ext (anonymous "sock1")
           req proof 1700000000010%Z (-1)%Z start
           eq_refl Hneg eq_refl eq_refl eq_refl).
Defined.
